(** * Shallow embedding of the authentication core of SMART-TASK-AI2

    Source: [server/src/modules/auth/auth.service.ts] ([AuthService] and
    [SessionRepository]) with its configuration [server/src/config/auth.config.ts].

    The Prisma store is an explicit state ([Store]) threaded through a small
    state-and-exception monad [M]; [try]/[catch] blocks of the TypeScript code
    become [catch_] combinators.  Wall-clock time ([new Date()], [Date.now()])
    is an explicit argument [now] in milliseconds.  External capabilities
    (argon2, the HMAC of jsonwebtoken, the id generators of Prisma and uuid)
    are section variables. *)

From Stdlib Require Import String Ascii List ZArith Bool Lia Sorted Permutation.
Import ListNotations.

Open Scope Z_scope.

(** ** Data model (Prisma records as read and written by the service) *)

Record User := mkUser {
  user_id : string;
  user_email : string;
  user_password : string;
  user_name : option string;
  user_isActive : bool;
  user_isLocked : bool;
  user_failedLoginAttempts : Z;
  user_lockedUntil : option Z
}.

Record Session := mkSession {
  session_id : string;
  session_userId : string;
  session_refreshToken : string;
  session_isRevoked : bool;
  session_expiresAt : Z;
  session_createdAt : Z
}.

(** The database: the two tables, whether the database is reachable, and the
    counter feeding the generators of fresh identifiers. *)
Record Store := mkStore {
  users : list User;
  sessions : list Session;
  db_up : bool;
  next_id : nat
}.

(** Error codes of [AuthError] used on the paths modelled here. *)
Inductive AuthCode :=
| USER_EXISTS | REGISTRATION_FAILED
| INVALID_CREDENTIALS | ACCOUNT_LOCKED | ACCOUNT_INACTIVE | LOGIN_FAILED
| INVALID_REFRESH_TOKEN | TOKEN_REUSE_DETECTED | REFRESH_TOKEN_EXPIRED
| USER_INVALID | REFRESH_FAILED
| USER_NOT_FOUND | INVALID_PASSWORD | PASSWORD_CHANGE_FAILED
| SESSIONS_FETCH_FAILED | SESSION_REVOKE_FAILED | SESSIONS_REVOKE_FAILED
| EMAIL_TAKEN | PROFILE_UPDATE_FAILED.

(** Exceptions that can be thrown: [AuthError], a Prisma known request error
    (with its code, e.g. "P2002" for a unique constraint violation), or a
    plain [Error]. *)
Inductive Exn :=
| AuthError (c : AuthCode)
| PrismaKnownError (code : string)
| PlainError (msg : string).

Inductive Result (A : Type) :=
| Ok (a : A)
| Throw (e : Exn).
Arguments Ok {A} a.
Arguments Throw {A} e.

(** ** State-and-exception monad *)

Definition M (A : Type) := Store -> Store * Result A.

Definition ret {A} (a : A) : M A := fun s => (s, Ok a).
Definition throw {A} (e : Exn) : M A := fun s => (s, Throw e).
Definition bind {A B} (m : M A) (k : A -> M B) : M B :=
  fun s => match m s with
           | (s', Ok a) => k a s'
           | (s', Throw e) => (s', Throw e)
           end.
(** [try { m } catch (e) { h(e) }] *)
Definition catch_ {A} (m : M A) (h : Exn -> M A) : M A :=
  fun s => match m s with
           | (s', Ok a) => (s', Ok a)
           | (s', Throw e) => h e s'
           end.

Notation "x <- m ;; k" := (bind m (fun x => k))
  (at level 61, m at next level, right associativity).
Notation "m ;;; k" := (bind m (fun _ => k))
  (at level 61, right associativity).

(** ** Small helpers on records *)

Definition is_AuthError (e : Exn) : bool :=
  match e with AuthError _ => true | _ => false end.

(** What [String.prototype.toLowerCase] does on ASCII text: A-Z become a-z,
    every other character is kept. The runtime's function also maps
    non-ASCII letters; the model keeps it abstract (see [AuthCore]) and uses
    this one only to run examples whose strings are ASCII. *)
Definition lower_ascii (c : ascii) : ascii :=
  let n := nat_of_ascii c in
  if (Nat.leb 65 n && Nat.leb n 90)%bool then ascii_of_nat (n + 32) else c.

Fixpoint toLowerCase_ascii (s : string) : string :=
  match s with
  | EmptyString => EmptyString
  | String c r => String (lower_ascii c) (toLowerCase_ascii r)
  end.

Definition set_revoked (x : Session) : Session :=
  mkSession (session_id x) (session_userId x) (session_refreshToken x)
            true (session_expiresAt x) (session_createdAt x).

Definition find_user_by_email (e : string) (l : list User) : option User :=
  find (fun u => String.eqb (user_email u) e) l.

Definition find_user_by_id (i : string) (l : list User) : option User :=
  find (fun u => String.eqb (user_id u) i) l.

Definition find_session_by_token (t : string) (l : list Session) : option Session :=
  find (fun x => String.eqb (session_refreshToken x) t) l.

(** [Array.prototype.sort] by a descending key (insertion sort; used for
    Prisma's [orderBy: { createdAt: 'desc' }]). *)
Fixpoint insert_desc (x : Session) (l : list Session) : list Session :=
  match l with
  | [] => [x]
  | y :: r => if session_createdAt y <? session_createdAt x then x :: y :: r
              else y :: insert_desc x r
  end.

Fixpoint sort_createdAt_desc (l : list Session) : list Session :=
  match l with
  | [] => []
  | x :: r => insert_desc x (sort_createdAt_desc r)
  end.

(** ** JSON web tokens (the parts of [jsonwebtoken] the service relies on) *)

Inductive Alg := HS256 | HS384 | HS512 | RS256 | ALG_NONE.

Definition alg_eqb (a b : Alg) : bool :=
  match a, b with
  | HS256, HS256 | HS384, HS384 | HS512, HS512 | RS256, RS256
  | ALG_NONE, ALG_NONE => true
  | _, _ => false
  end.

(** Registered and private claims of a payload ([undefined] is [None]). *)
Record Claims := mkClaims {
  c_userId : option string;
  c_email : option string;
  c_type : option string;
  c_iat : option Z;
  c_exp : option Z;
  c_iss : option string;
  c_aud : option string
}.

(** A token string as [jwt.verify] sees it: either it decodes to a compact
    JWS (header algorithm, payload, signature) or it is malformed. *)
Inductive Token :=
| Compact (alg : Alg) (payload : Claims) (signature : Z)
| Malformed (raw : string).

Definition opt_string_eqb (a b : option string) : bool :=
  match a, b with
  | Some x, Some y => String.eqb x y
  | None, None => true
  | _, _ => false
  end.

(** [authConfig] of [config/auth.config.ts]; [jwt_accessTokenExpiry] is the
    [expiresIn] string ('10m') converted to seconds. *)
Record AuthConfig := mkAuthConfig {
  jwt_secret : string;
  jwt_algorithm : Alg;
  jwt_accessTokenExpiry : Z;
  maxFailedLoginAttempts : Z;
  accountLockoutDuration : Z
}.

(** Response records. *)
Record AuthResponse := mkAuthResponse {
  resp_user_id : string;
  resp_user_email : string;
  resp_user_name : option string;
  resp_accessToken : Token;
  resp_refreshToken : string
}.

(** ** Concrete instances used to run the model on examples *)

(** Configuration with the defaults of [config/auth.config.ts] (HS256 is the
    default of [JWT_ALGORITHM] in the environment schema). *)
Definition default_cfg : AuthConfig :=
  mkAuthConfig "test-jwt-secret-that-is-long-enough-32-chars" HS256 600 5 (15 * 60 * 1000).

(** The same configuration with [JWT_ALGORITHM=HS512]. *)
Definition hs512_cfg : AuthConfig :=
  mkAuthConfig "test-jwt-secret-that-is-long-enough-32-chars" HS512 600 5 (15 * 60 * 1000).

(** A deterministic stand-in for the MAC: any function of its inputs. *)
Definition demo_hmac (a : Alg) (secret : string) (p : Claims) : Z :=
  Z.of_nat (String.length secret)
  + match a with HS256 => 256 | HS384 => 384 | HS512 => 512 | RS256 => 1 | ALG_NONE => 0 end
  + match c_exp p with Some e => e | None => 0 end.

Definition demo_hash (pw : string) : string := append "argon2id$" pw.
Definition demo_verify (digest pw : string) : bool := String.eqb digest (demo_hash pw).
Definition demo_cuid (n : nat) : string := String "c" (String (ascii_of_nat (48 + n)) EmptyString).
Definition demo_uuid (n : nat) : string := String "t" (String (ascii_of_nat (48 + n)) EmptyString).
(** A server running in UTC: the time-zone offset is always zero. *)
Definition utc_tza (t : Z) (isUTC : bool) : Z := 0.

Definition alice : User :=
  mkUser "u1" "alice@x.com" (demo_hash "Aa1!aaaa") None true false 0 None.

(** [String.prototype.split(c)] for a one-character separator. *)
Fixpoint js_split_char (c : ascii) (s : string) : list string :=
  match s with
  | EmptyString => [EmptyString]
  | String a r =>
      let rest := js_split_char c r in
      if Ascii.eqb a c then EmptyString :: rest
      else match rest with
           | h :: t => String a h :: t
           | [] => [String a EmptyString]
           end
  end.

(** JavaScript truthiness of an optional string ([undefined] and [""] are
    falsy). *)
Definition truthy (o : option string) : bool :=
  match o with Some x => negb (String.eqb x "") | None => false end.

(** Outcome of an Express middleware: call [next()] or answer with a status
    and an error code. *)
Inductive MwResult :=
| Next
| Respond (status : Z) (code : string).

Definition set_expiresAt (e : Z) (x : Session) : Session :=
  mkSession (session_id x) (session_userId x) (session_refreshToken x)
            (session_isRevoked x) e (session_createdAt x).

Definition find_session_by_id (i : string) (l : list Session) : option Session :=
  find (fun x => String.eqb (session_id x) i) l.


Section AuthCore.

(** Configuration of the running server. *)
Variable cfg : AuthConfig.
(** The keyed MAC behind [jwt.sign]/[jwt.verify]: algorithm, secret, payload. *)
Variable hmac : Alg -> string -> Claims -> Z.
(** [argon2.hash] and [argon2.verify(digest, plaintext)]. *)
Variable argon2_hash : string -> string.
Variable argon2_verify : string -> string -> bool.
(** Generators of fresh values: Prisma's [@default(cuid())] ids and [uuidv4()]. *)
Variable cuid : nat -> string.
Variable uuidv4 : nat -> string.
(** The runtime's [String.prototype.toLowerCase], with its full Unicode case
    mapping (a capital E with acute accent becomes a small one). *)
Variable toLowerCase : string -> string.
(** ECMA-262 [LocalTZA(t, isUTC)]: the offset in ms of the server's time zone
    at the time value [t], read as UTC ([true]) or as local time ([false]).
    It changes at daylight-saving transitions. *)
Variable LocalTZA : Z -> bool -> Z.

(** *** jsonwebtoken *)

(** [jwt.sign(payload, secret, { expiresIn, issuer, audience })]: no
    [algorithm] option is given, so the header algorithm is the library
    default HS256; [iat] is the current time in seconds. *)
Definition jwt_sign (p : Claims) (secret : string) (expiresIn : Z)
    (issuer audience : string) (now : Z) : Token :=
  let iat := now / 1000 in
  let p' := mkClaims (c_userId p) (c_email p) (c_type p) (Some iat)
                     (Some (iat + expiresIn)) (Some issuer) (Some audience) in
  Compact HS256 p' (hmac HS256 secret p').

(** [jwt.verify(token, secret, { algorithms, issuer?, audience? })]: the
    header algorithm must be listed, the signature must match, [exp] (when
    present) must be in the future, and [iss]/[aud] are checked only when the
    corresponding option is passed. Failures are thrown. *)
Definition jwt_verify (tok : Token) (secret : string) (algorithms : list Alg)
    (issuer audience : option string) (now : Z) : Result Claims :=
  match tok with
  | Malformed _ => Throw (PlainError "jwt malformed")
  | Compact a p sg =>
      if negb (existsb (alg_eqb a) algorithms) then Throw (PlainError "invalid algorithm")
      else if negb (sg =? hmac a secret p) then Throw (PlainError "invalid signature")
      else if match c_exp p with Some e => e <=? now / 1000 | None => false end
      then Throw (PlainError "jwt expired")
      else if match audience with
              | Some aud => negb (opt_string_eqb (c_aud p) (Some aud))
              | None => false end
      then Throw (PlainError "jwt audience invalid")
      else if match issuer with
              | Some iss => negb (opt_string_eqb (c_iss p) (Some iss))
              | None => false end
      then Throw (PlainError "jwt issuer invalid")
      else Ok p
  end.

(** *** Prisma client *)

Definition db {A} (m : M A) : M A :=
  fun s => if db_up s then m s else (s, Throw (PlainError "Can't reach database server")).

Definition prisma_user_findUnique_email (e : string) : M (option User) :=
  db (fun s => (s, Ok (find_user_by_email e (users s)))).

Definition prisma_user_findUnique_id (i : string) : M (option User) :=
  db (fun s => (s, Ok (find_user_by_id i (users s)))).

(** [prisma.user.create]: the unique index on [email] raises P2002. *)
Definition prisma_user_create (email password : string) (name : option string) : M User :=
  db (fun s =>
    match find_user_by_email email (users s) with
    | Some _ => (s, Throw (PrismaKnownError "P2002"))
    | None =>
        let u := mkUser (cuid (next_id s)) email password name true false 0 None in
        (mkStore (users s ++ [u]) (sessions s) (db_up s) (S (next_id s)), Ok u)
    end).

(** [prisma.user.update({ where: { id }, data })]: P2025 when no record. *)
Definition prisma_user_update (i : string) (patch : User -> User) : M User :=
  db (fun s =>
    match find_user_by_id i (users s) with
    | None => (s, Throw (PrismaKnownError "P2025"))
    | Some u =>
        (mkStore (map (fun x => if String.eqb (user_id x) i then patch x else x) (users s))
                 (sessions s) (db_up s) (next_id s), Ok (patch u))
    end).

(** [prisma.session.create]: the unique index on [refreshToken] raises P2002. *)
Definition prisma_session_create (userId refreshToken : string) (expiresAt now : Z) : M Session :=
  db (fun s =>
    match find_session_by_token refreshToken (sessions s) with
    | Some _ => (s, Throw (PrismaKnownError "P2002"))
    | None =>
        let x := mkSession (cuid (next_id s)) userId refreshToken false expiresAt now in
        (mkStore (users s) (sessions s ++ [x]) (db_up s) (S (next_id s)), Ok x)
    end).

Definition prisma_session_findUnique_token (t : string) : M (option Session) :=
  db (fun s => (s, Ok (find_session_by_token t (sessions s)))).

(** [prisma.session.updateMany({ where, data: { isRevoked: true } })]:
    returns the number of records matched by [where]. *)
Definition prisma_session_updateMany_revoke (where_ : Session -> bool) : M Z :=
  db (fun s =>
    (mkStore (users s) (map (fun x => if where_ x then set_revoked x else x) (sessions s))
             (db_up s) (next_id s),
     Ok (Z.of_nat (length (filter where_ (sessions s)))))).

Definition prisma_session_findMany_active (userId : string) (now : Z) : M (list Session) :=
  db (fun s =>
    (s, Ok (sort_createdAt_desc
              (filter (fun x => String.eqb (session_userId x) userId
                                && negb (session_isRevoked x)
                                && (now <? session_expiresAt x)) (sessions s))))).

(** *** SessionRepository *)

(** Each repository method rethrows any failure as a plain [Error]. *)
Definition createSession (userId : string) (expiresAt now : Z) : M Session :=
  catch_ (fun s => (let refreshToken := uuidv4 (next_id s) in
                    prisma_session_create userId refreshToken expiresAt now) s)
         (fun _ => throw (PlainError "Failed to create session")).

Definition findByRefreshToken (refreshToken : string) : M (option Session) :=
  catch_ (prisma_session_findUnique_token refreshToken)
         (fun _ => throw (PlainError "Failed to find session")).

Definition findActiveSessionsByUserId (userId : string) (now : Z) : M (list Session) :=
  catch_ (prisma_session_findMany_active userId now)
         (fun _ => throw (PlainError "Failed to find sessions")).

(** [...(userId && { userId })]: the owner filter is added only for a truthy
    (non-empty) [userId]. *)
Definition owner_filter (userId : option string) (x : Session) : bool :=
  match userId with
  | Some u => if String.eqb u "" then true else String.eqb (session_userId x) u
  | None => true
  end.

Definition revokeSession (sessionId : string) (userId : option string) : M bool :=
  catch_ (count <- prisma_session_updateMany_revoke
                     (fun x => String.eqb (session_id x) sessionId && owner_filter userId x) ;;
          if 0 <? count then ret true else ret false)
         (fun _ => throw (PlainError "Failed to revoke session")).

Definition revokeAllSessionsByUserId (userId : string) : M Z :=
  catch_ (prisma_session_updateMany_revoke
            (fun x => String.eqb (session_userId x) userId && negb (session_isRevoked x)))
         (fun _ => throw (PlainError "Failed to revoke sessions")).

(** *** AuthService: private helpers *)

(** ECMA-262 [LocalTime(t)] and [UTC(t)]. *)
Definition LocalTime (t : Z) : Z := t + LocalTZA t true.
Definition UTC (t : Z) : Z := t - LocalTZA t false.

Definition msPerDay : Z := 24 * 60 * 60 * 1000.

(** [expiresAt.setDate(expiresAt.getDate() + 7)] on [new Date()]: the local
    date moves seven days on and the local time of day is kept
    ([MakeDay(YearFromTime(lt), MonthFromTime(lt), DateFromTime(lt) + 7)] is
    [Day(lt) + 7]), and the result is read back through [UTC]. Time values are
    taken within the ECMAScript range, where [TimeClip] keeps them. *)
Definition setDate_plus7 (now : Z) : Z := UTC (LocalTime now + 7 * msPerDay).

Definition createUserSession (userId : string) (now : Z) : M Session :=
  createSession userId (setDate_plus7 now) now.

Definition generateAccessToken (user : User) (now : Z) : Token :=
  jwt_sign (mkClaims (Some (user_id user)) (Some (user_email user)) (Some "access"%string)
                     None None None None)
           (jwt_secret cfg) (jwt_accessTokenExpiry cfg)
           "smart-task-ai2" "smart-task-ai2-users" now.

(** The [data] patch of [handleFailedLogin]. *)
Definition failed_login_patch (newFailedAttempts : Z) (lock : option Z) (u : User) : User :=
  match lock with
  | Some lockedUntil =>
      mkUser (user_id u) (user_email u) (user_password u) (user_name u)
             (user_isActive u) true newFailedAttempts (Some lockedUntil)
  | None =>
      mkUser (user_id u) (user_email u) (user_password u) (user_name u)
             (user_isActive u) (user_isLocked u) newFailedAttempts (user_lockedUntil u)
  end.

(** [handleFailedLogin]: every failure is swallowed. *)
Definition handleFailedLogin (email : string) (now : Z) : M unit :=
  catch_ (ou <- prisma_user_findUnique_email (toLowerCase email) ;;
          match ou with
          | Some user =>
              let newFailedAttempts := user_failedLoginAttempts user + 1 in
              let shouldLockAccount := maxFailedLoginAttempts cfg <=? newFailedAttempts in
              prisma_user_update (user_id user)
                (failed_login_patch newFailedAttempts
                   (if shouldLockAccount then Some (now + accountLockoutDuration cfg) else None)) ;;;
              ret tt
          | None => ret tt
          end)
         (fun _ => ret tt).

Definition clear_lock_patch (u : User) : User :=
  mkUser (user_id u) (user_email u) (user_password u) (user_name u)
         (user_isActive u) false 0 None.

Definition unlockAccount (userId : string) : M unit :=
  prisma_user_update userId clear_lock_patch ;;; ret tt.

Definition resetFailedLoginAttempts (userId : string) : M unit :=
  prisma_user_update userId clear_lock_patch ;;; ret tt.

Definition password_patch (hashed : string) (u : User) : User :=
  mkUser (user_id u) (user_email u) hashed (user_name u)
         (user_isActive u) (user_isLocked u) (user_failedLoginAttempts u) (user_lockedUntil u).

(** [data.name || null] *)
Definition name_or_null (name : option string) : option string :=
  match name with
  | Some n => if String.eqb n "" then None else Some n
  | None => None
  end.

(** *** AuthService: public methods *)

(** [register]; [between] is whatever other requests run against the
    database between the existence check and [prisma.user.create]
    ([ret tt] for a request running alone, see [register]). *)
Definition register_with (between : M unit) (email password : string)
    (name : option string) (now : Z) : M AuthResponse :=
  catch_ (existingUser <- prisma_user_findUnique_email (toLowerCase email) ;;
          match existingUser with
          | Some _ => throw (AuthError USER_EXISTS)
          | None =>
              let hashedPassword := argon2_hash password in
              between ;;;
              user <- prisma_user_create (toLowerCase email) hashedPassword (name_or_null name) ;;
              session <- createUserSession (user_id user) now ;;
              let accessToken := generateAccessToken user now in
              ret (mkAuthResponse (user_id user) (user_email user) (user_name user)
                                  accessToken (session_refreshToken session))
          end)
         (fun e => if is_AuthError e then throw e
                   else throw (AuthError REGISTRATION_FAILED)).

Definition register := register_with (ret tt).

Definition login (email password : string) (now : Z) : M AuthResponse :=
  catch_ (ou <- prisma_user_findUnique_email (toLowerCase email) ;;
          match ou with
          | None => handleFailedLogin email now ;;; throw (AuthError INVALID_CREDENTIALS)
          | Some user =>
              (if user_isLocked user then
                 match user_lockedUntil user with
                 | Some lockedUntil =>
                     if now <? lockedUntil then throw (AuthError ACCOUNT_LOCKED)
                     else unlockAccount (user_id user)
                 | None => unlockAccount (user_id user)
                 end
               else ret tt) ;;;
              if negb (user_isActive user) then throw (AuthError ACCOUNT_INACTIVE)
              else if negb (argon2_verify (user_password user) password) then
                handleFailedLogin email now ;;; throw (AuthError INVALID_CREDENTIALS)
              else
                (if 0 <? user_failedLoginAttempts user
                 then resetFailedLoginAttempts (user_id user) else ret tt) ;;;
                session <- createUserSession (user_id user) now ;;
                let accessToken := generateAccessToken user now in
                ret (mkAuthResponse (user_id user) (user_email user) (user_name user)
                                    accessToken (session_refreshToken session))
          end)
         (fun e => if is_AuthError e then throw e else throw (AuthError LOGIN_FAILED)).

(** [refreshToken]: returns the new access token. *)
Definition refreshToken (refreshToken : string) (now : Z) : M Token :=
  catch_ (ose <- findByRefreshToken refreshToken ;;
          match ose with
          | None => throw (AuthError INVALID_REFRESH_TOKEN)
          | Some session =>
              if session_isRevoked session then
                revokeAllSessionsByUserId (session_userId session) ;;;
                throw (AuthError TOKEN_REUSE_DETECTED)
              else if session_expiresAt session <? now then
                revokeSession (session_id session) None ;;;
                throw (AuthError REFRESH_TOKEN_EXPIRED)
              else
                ou <- prisma_user_findUnique_id (session_userId session) ;;
                match ou with
                | Some user =>
                    if user_isActive user && negb (user_isLocked user) then
                      ret (generateAccessToken user now)
                    else revokeSession (session_id session) None ;;;
                         throw (AuthError USER_INVALID)
                | None =>
                    revokeSession (session_id session) None ;;;
                    throw (AuthError USER_INVALID)
                end
          end)
         (fun e => if is_AuthError e then throw e else throw (AuthError REFRESH_FAILED)).

Definition logout (refreshToken : string) : M unit :=
  catch_ (ose <- findByRefreshToken refreshToken ;;
          match ose with
          | Some session => revokeSession (session_id session) None ;;; ret tt
          | None => ret tt
          end)
         (fun _ => ret tt).

Definition changePassword (userId currentPassword newPassword : string) : M unit :=
  catch_ (ou <- prisma_user_findUnique_id userId ;;
          match ou with
          | None => throw (AuthError USER_NOT_FOUND)
          | Some user =>
              if negb (argon2_verify (user_password user) currentPassword) then
                throw (AuthError INVALID_PASSWORD)
              else
                let hashedNewPassword := argon2_hash newPassword in
                prisma_user_update userId (password_patch hashedNewPassword) ;;;
                revokeAllSessionsByUserId userId ;;;
                ret tt
          end)
         (fun e => if is_AuthError e then throw e
                   else throw (AuthError PASSWORD_CHANGE_FAILED)).

(** [validateAccessToken]: [jwt.verify] is called with the [algorithms]
    option only; any exception yields [null] ([None]). *)
Definition validateAccessToken (token : Token) (now : Z) : option (option string * option string) :=
  match jwt_verify token (jwt_secret cfg) [jwt_algorithm cfg] None None now with
  | Throw _ => None
  | Ok decoded =>
      if negb (opt_string_eqb (c_type decoded) (Some "access"%string)) then None
      else Some (c_userId decoded, c_email decoded)
  end.

(** [getUserSessions]: (id, createdAt, expiresAt, isRevoked) of the active
    sessions. *)
Definition getUserSessions (userId : string) (now : Z) : M (list (string * Z * Z * bool)) :=
  catch_ (l <- findActiveSessionsByUserId userId now ;;
          ret (map (fun x => (session_id x, session_createdAt x, session_expiresAt x,
                              session_isRevoked x)) l))
         (fun _ => throw (AuthError SESSIONS_FETCH_FAILED)).


(** *** Remaining Prisma operations *)

Definition prisma_session_findUnique_id (i : string) : M (option Session) :=
  db (fun s => (s, Ok (find_session_by_id i (sessions s)))).

(** [prisma.session.update({ where: { id }, data: { expiresAt } })]. *)
Definition prisma_session_update_expiry (i : string) (e : Z) : M Session :=
  db (fun s =>
    match find_session_by_id i (sessions s) with
    | None => (s, Throw (PrismaKnownError "P2025"))
    | Some x =>
        (mkStore (users s)
                 (map (fun y => if String.eqb (session_id y) i then set_expiresAt e y else y)
                      (sessions s))
                 (db_up s) (next_id s), Ok (set_expiresAt e x))
    end).

(** [prisma.session.deleteMany({ where: { expiresAt: { lt: now } } })]. *)
Definition prisma_session_deleteMany_expired (now : Z) : M Z :=
  db (fun s =>
    (mkStore (users s) (filter (fun x => negb (session_expiresAt x <? now)) (sessions s))
             (db_up s) (next_id s),
     Ok (Z.of_nat (length (filter (fun x => session_expiresAt x <? now) (sessions s)))))).

Definition prisma_session_count (where_ : Session -> bool) : M Z :=
  db (fun s => (s, Ok (Z.of_nat (length (filter where_ (sessions s)))))).

(** *** Remaining SessionRepository methods *)

Definition findById (sessionId : string) : M (option Session) :=
  catch_ (prisma_session_findUnique_id sessionId)
         (fun _ => throw (PlainError "Failed to find session")).

Definition cleanupExpiredSessions (now : Z) : M Z :=
  catch_ (prisma_session_deleteMany_expired now)
         (fun _ => throw (PlainError "Failed to cleanup sessions")).

(** [session?.isRevoked ?? false] *)
Definition isRefreshTokenReused (refreshToken : string) : M bool :=
  catch_ (ose <- prisma_session_findUnique_token refreshToken ;;
          ret (match ose with Some x => session_isRevoked x | None => false end))
         (fun _ => throw (PlainError "Failed to check token reuse")).

(** (totalSessions, activeSessions, revokedSessions) *)
Definition getSessionStats (userId : string) (now : Z) : M (Z * Z * Z) :=
  catch_ (totalSessions <- prisma_session_count (fun x => String.eqb (session_userId x) userId) ;;
          activeSessions <- prisma_session_count
                              (fun x => String.eqb (session_userId x) userId
                                        && negb (session_isRevoked x)
                                        && (now <? session_expiresAt x)) ;;
          revokedSessions <- prisma_session_count
                               (fun x => String.eqb (session_userId x) userId
                                         && session_isRevoked x) ;;
          ret (totalSessions, activeSessions, revokedSessions))
         (fun _ => throw (PlainError "Failed to get session statistics")).

Definition updateSessionExpiry (sessionId : string) (newExpiry : Z) : M Session :=
  catch_ (prisma_session_update_expiry sessionId newExpiry)
         (fun _ => throw (PlainError "Failed to update session expiry")).

(** *** Remaining AuthService methods *)

(** The profile returned by [getUserProfile]: id, email, name (only when
    truthy) and isActive. *)
Definition profile_of (u : User) : string * string * option string * bool :=
  (user_id u, user_email u, name_or_null (user_name u), user_isActive u).

Definition getUserProfile (userId : string) : M (option (string * string * option string * bool)) :=
  catch_ (ou <- prisma_user_findUnique_id userId ;;
          ret (match ou with Some u => Some (profile_of u) | None => None end))
         (fun _ => ret None).

(** The [updateData] patch of [updateUserProfile]. *)
Definition profile_patch (name email : option string) (u : User) : User :=
  mkUser (user_id u)
         (match email with Some e => e | None => user_email u end)
         (user_password u)
         (match name with Some n => Some n | None => user_name u end)
         (user_isActive u) (user_isLocked u) (user_failedLoginAttempts u) (user_lockedUntil u).

Definition updateUserProfile (userId : string) (name email : option string) : M unit :=
  catch_ ((match email with
           | Some e =>
               existingUser <- prisma_user_findUnique_email (toLowerCase e) ;;
               match existingUser with
               | Some x => if negb (String.eqb (user_id x) userId)
                           then throw (AuthError EMAIL_TAKEN) else ret tt
               | None => ret tt
               end
           | None => ret tt
           end) ;;;
          prisma_user_update userId
            (profile_patch name (match email with Some e => Some (toLowerCase e) | None => None end)) ;;;
          ret tt)
         (fun e => if is_AuthError e then throw e
                   else throw (AuthError PROFILE_UPDATE_FAILED)).

(** [AuthService.revokeSession(userId, sessionId)] *)
Definition AuthService_revokeSession (userId sessionId : string) : M bool :=
  catch_ (revokeSession sessionId (Some userId))
         (fun _ => throw (AuthError SESSION_REVOKE_FAILED)).

Definition revokeAllSessions (userId : string) : M Z :=
  catch_ (revokeAllSessionsByUserId userId)
         (fun _ => throw (AuthError SESSIONS_REVOKE_FAILED)).

(** *** Middleware ([middleware/auth.middleware.ts]) *)

(** jsonwebtoken's decoding of a token string. *)
Variable jwt_decode : string -> Token.

(** [authenticateToken]: the token is the second space-separated field of
    the [Authorization] header; returns the response and [req.user]. *)
Definition authenticateToken (authorization : option string) (now : Z)
    : MwResult * option (option string * option string) :=
  let token := if truthy authorization
               then match authorization with
                    | Some h => nth_error (js_split_char " " h) 1
                    | None => None
                    end
               else authorization in
  if negb (truthy token) then (Respond 401 "TOKEN_MISSING", None)
  else
    match validateAccessToken (jwt_decode (match token with Some t => t | None => "" end)) now with
    | None => (Respond 401 "INVALID_TOKEN", None)
    | Some decoded => (Next, Some decoded)
    end.

(** [requireRole(allowedRoles)]: the role of every user is the constant
    'user'. *)
Definition requireRole (allowedRoles : list string) (user : option (option string * option string))
    : MwResult :=
  match user with
  | None => Respond 401 "UNAUTHORIZED"
  | Some _ =>
      let userRole := "user"%string in
      if negb (existsb (String.eqb userRole) allowedRoles)
      then Respond 403 "INSUFFICIENT_PERMISSIONS"
      else Next
  end.

(** [csrfProtection]: double-submit check of the [x-csrf-token] header
    against the [csrf-token] cookie on state-changing methods. *)
Definition csrfProtection (method : string) (csrfToken csrfCookie : option string) : MwResult :=
  let stateChangingMethods := ["POST"; "PUT"; "PATCH"; "DELETE"]%string in
  if negb (existsb (String.eqb method) stateChangingMethods) then Next
  else if negb (truthy csrfToken) || negb (truthy csrfCookie) then Respond 403 "CSRF_TOKEN_MISSING"
  else if negb (opt_string_eqb csrfToken csrfCookie) then Respond 403 "CSRF_TOKEN_MISMATCH"
  else Next.

(** ** Properties *)

(** *** Lists and lookups *)

Lemma find_map_same_key {A} (p : A -> bool) (g : A -> A) (l : list A) :
  (forall x, p (g x) = p x) -> find p (map g l) = option_map g (find p l).
Proof.
  intros Hg. induction l as [|x r IH]; simpl; [reflexivity|].
  rewrite Hg. destruct (p x); [reflexivity | exact IH].
Qed.

Lemma find_session_by_token_In (l : list Session) (x : Session) :
  NoDup (map session_refreshToken l) -> In x l ->
  find_session_by_token (session_refreshToken x) l = Some x.
Proof.
  unfold find_session_by_token.
  induction l as [|y r IH]; simpl; intros Hnd Hin; [contradiction|].
  inversion Hnd as [|? ? Hnotin Hnd']; subst.
  destruct Hin as [<-|Hin].
  - rewrite String.eqb_refl. reflexivity.
  - destruct (String.eqb_spec (session_refreshToken y) (session_refreshToken x)) as [Heq|_].
    + exfalso. apply Hnotin. rewrite Heq. apply in_map. exact Hin.
    + apply IH; assumption.
Qed.

Lemma filter_all_false {A} (p : A -> bool) (l : list A) :
  (forall x, In x l -> p x = false) -> filter p l = [].
Proof.
  induction l as [|x r IH]; simpl; intros H; [reflexivity|].
  rewrite (H x (or_introl eq_refl)). apply IH. intros y Hy. apply H. right. exact Hy.
Qed.

Lemma set_revoked_id (x : Session) :
  session_isRevoked x = true -> set_revoked x = x.
Proof. destruct x; simpl; intros ->; reflexivity. Qed.

Lemma map_revoke_idempotent (p : Session -> bool) (l : list Session) :
  map (fun x => if p x then set_revoked x else x)
      (map (fun x => if p x then set_revoked x else x) l)
  = map (fun x => if p x then set_revoked x else x) l.
Proof.
  rewrite map_map. apply map_ext. intros x.
  destruct (p x) eqn:Hp.
  - destruct (p (set_revoked x)); [apply set_revoked_id; reflexivity | reflexivity].
  - rewrite Hp. reflexivity.
Qed.

(** *** SessionRepository *)

Definition revoke_all_where (userId : string) (x : Session) : bool :=
  String.eqb (session_userId x) userId && negb (session_isRevoked x).

Lemma revokeAllSessionsByUserId_up (s : Store) (userId : string) :
  db_up s = true ->
  revokeAllSessionsByUserId userId s =
    (mkStore (users s)
       (map (fun x => if revoke_all_where userId x then set_revoked x else x) (sessions s))
       (db_up s) (next_id s),
     Ok (Z.of_nat (length (filter (revoke_all_where userId) (sessions s))))).
Proof.
  intros Hup. unfold revokeAllSessionsByUserId, catch_, prisma_session_updateMany_revoke, db.
  rewrite Hup. reflexivity.
Qed.

Lemma revoke_all_where_In (userId : string) (l : list Session) (x : Session) :
  In x (map (fun y => if revoke_all_where userId y then set_revoked y else y) l) ->
  session_userId x = userId -> session_isRevoked x = true.
Proof.
  intros Hin Hu. apply in_map_iff in Hin as [y [<- _]].
  unfold revoke_all_where in *.
  destruct (String.eqb (session_userId y) userId && negb (session_isRevoked y)) eqn:Hc.
  - reflexivity.
  - simpl in Hu. rewrite Hu, String.eqb_refl in Hc. simpl in Hc.
    destruct (session_isRevoked y); [reflexivity | discriminate].
Qed.

Lemma no_active_when_all_revoked (s : Store) (userId : string) (now : Z) :
  db_up s = true ->
  (forall x, In x (sessions s) -> session_userId x = userId -> session_isRevoked x = true) ->
  getUserSessions userId now s = (s, Ok []).
Proof.
  intros Hup Hall.
  unfold getUserSessions, findActiveSessionsByUserId, prisma_session_findMany_active,
    catch_, bind, db.
  rewrite Hup. rewrite filter_all_false; [reflexivity|].
  intros x Hx. destruct (String.eqb_spec (session_userId x) userId) as [Hu|Hu]; [|reflexivity].
  rewrite (Hall x Hx Hu). reflexivity.
Qed.

Lemma refreshToken_on_revoked (s : Store) (sess : Session) (now : Z) :
  db_up s = true ->
  NoDup (map session_refreshToken (sessions s)) ->
  In sess (sessions s) ->
  session_isRevoked sess = true ->
  refreshToken (session_refreshToken sess) now s =
    (mkStore (users s)
       (map (fun x => if revoke_all_where (session_userId sess) x
                      then set_revoked x else x) (sessions s))
       (db_up s) (next_id s),
     Throw (AuthError TOKEN_REUSE_DETECTED)).
Proof.
  intros Hup Hnd Hin Hrev.
  unfold refreshToken, findByRefreshToken, prisma_session_findUnique_token, catch_, bind, db.
  rewrite Hup, (find_session_by_token_In _ _ Hnd Hin), Hrev.
  rewrite (revokeAllSessionsByUserId_up s _ Hup). cbn. rewrite Hup. reflexivity.
Qed.

(** *** Claim C1 *)

(** C1: presenting the refresh token of a revoked session to [refreshToken]
    fails with TOKEN_REUSE_DETECTED; the only write is the revocation of every
    non-revoked session of that session's user, after which the user has no
    active session. *)
Theorem refreshToken_reuse_revokes_all (s : Store) (sess : Session) (now : Z) :
  db_up s = true ->
  NoDup (map session_refreshToken (sessions s)) ->
  In sess (sessions s) ->
  session_isRevoked sess = true ->
  let s' := mkStore (users s)
              (map (fun x => if revoke_all_where (session_userId sess) x
                             then set_revoked x else x) (sessions s))
              (db_up s) (next_id s) in
  refreshToken (session_refreshToken sess) now s = (s', Throw (AuthError TOKEN_REUSE_DETECTED))
  /\ (forall x, In x (sessions s') -> session_userId x = session_userId sess ->
                session_isRevoked x = true)
  /\ (forall now', getUserSessions (session_userId sess) now' s' = (s', Ok [])).
Proof.
  intros Hup Hnd Hin Hrev s'.
  assert (Hall : forall x, In x (sessions s') -> session_userId x = session_userId sess ->
                           session_isRevoked x = true)
    by (intros x Hx Hu; exact (revoke_all_where_In _ _ x Hx Hu)).
  split; [|split; [exact Hall|]].
  - apply refreshToken_on_revoked; assumption.
  - intros now'. apply no_active_when_all_revoked; [exact Hup | exact Hall].
Qed.

(** *** Access tokens *)

(** A payload signed with the configured secret and algorithm whose issuer and
    audience are not the pair used by [generateAccessToken]. *)
Definition foreign_issuer_claims (now : Z) : Claims :=
  mkClaims (Some "u1"%string) (Some "alice@x.com"%string) (Some "access"%string)
           (Some (now / 1000)) (Some (now / 1000 + 600))
           (Some "attacker"%string) (Some "attacker-audience"%string).

(** C3: [validateAccessToken] does not check issuer or audience: a token with
    a valid signature under the configured secret and algorithm, type
    "access", not expired, but with a foreign issuer and audience, is accepted
    and its claims are returned. *)
Theorem validateAccessToken_accepts_foreign_issuer (now : Z) :
  let p := foreign_issuer_claims now in
  validateAccessToken (Compact (jwt_algorithm cfg) p (hmac (jwt_algorithm cfg) (jwt_secret cfg) p)) now
  = Some (Some "u1"%string, Some "alice@x.com"%string).
Proof.
  intros p. unfold validateAccessToken, jwt_verify. simpl.
  assert (Ha : alg_eqb (jwt_algorithm cfg) (jwt_algorithm cfg) = true)
    by (destruct (jwt_algorithm cfg); reflexivity).
  rewrite Ha, Z.eqb_refl. simpl.
  replace (now / 1000 + 600 <=? now / 1000) with false by (symmetry; apply Z.leb_gt; lia).
  reflexivity.
Qed.

Lemma validateAccessToken_generateAccessToken_HS256 (user : User) (now now' : Z) :
  jwt_algorithm cfg = HS256 ->
  now' / 1000 < now / 1000 + jwt_accessTokenExpiry cfg ->
  validateAccessToken (generateAccessToken user now) now'
  = Some (Some (user_id user), Some (user_email user)).
Proof.
  intros Halg Hexp. unfold validateAccessToken, generateAccessToken, jwt_sign, jwt_verify.
  rewrite Halg. simpl. rewrite Z.eqb_refl. simpl.
  replace (now / 1000 + jwt_accessTokenExpiry cfg <=? now' / 1000) with false
    by (symmetry; apply Z.leb_gt; lia).
  reflexivity.
Qed.

(** C10: [generateAccessToken] signs with the library default HS256 while
    [validateAccessToken] only admits the configured algorithm: whenever the
    configured algorithm is not HS256, validating a freshly minted token
    yields [null]. *)
Theorem validateAccessToken_rejects_minted_unless_HS256 (user : User) (now now' : Z) :
  jwt_algorithm cfg <> HS256 ->
  validateAccessToken (generateAccessToken user now) now' = None.
Proof.
  intros Halg. unfold validateAccessToken, generateAccessToken, jwt_sign, jwt_verify.
  simpl. destruct (jwt_algorithm cfg); simpl; try reflexivity. contradiction.
Qed.

(** *** refreshToken: expiry and success *)

(** C5 (as the code has it): for a non-revoked session found by the
    presented token, [expiresAt < now] revokes the session and fails with
    REFRESH_TOKEN_EXPIRED; a session with [now <= expiresAt], in particular
    [expiresAt = now], is not treated as expired: the call never fails with
    REFRESH_TOKEN_EXPIRED, and for an active, unlocked owner it succeeds
    without touching the store. *)
Theorem refreshToken_expired_strict (s : Store) (sess : Session) (now : Z) :
  db_up s = true ->
  NoDup (map session_refreshToken (sessions s)) ->
  In sess (sessions s) ->
  session_isRevoked sess = false ->
  (session_expiresAt sess < now ->
   let s' := mkStore (users s)
               (map (fun x => if String.eqb (session_id x) (session_id sess) && true
                              then set_revoked x else x) (sessions s))
               (db_up s) (next_id s) in
   refreshToken (session_refreshToken sess) now s = (s', Throw (AuthError REFRESH_TOKEN_EXPIRED))
   /\ In (set_revoked sess) (sessions s')) /\
  (now <= session_expiresAt sess ->
   snd (refreshToken (session_refreshToken sess) now s) <> Throw (AuthError REFRESH_TOKEN_EXPIRED) /\
   forall u, find_user_by_id (session_userId sess) (users s) = Some u ->
     user_isActive u = true -> user_isLocked u = false ->
     refreshToken (session_refreshToken sess) now s = (s, Ok (generateAccessToken u now))).
Proof.
  intros Hup Hnd Hin Hrev. split.
  - intros Hexp s'. split.
    + unfold refreshToken, findByRefreshToken, prisma_session_findUnique_token,
        revokeSession, prisma_session_updateMany_revoke, catch_, bind, db, ret, throw.
      rewrite Hup, (find_session_by_token_In _ _ Hnd Hin), Hrev.
      apply Z.ltb_lt in Hexp. rewrite Hexp. simpl. rewrite Hup.
      unfold s'. rewrite Hup. destruct (0 <? _); reflexivity.
    + simpl. apply in_map_iff. exists sess. split; [|exact Hin].
      rewrite String.eqb_refl. reflexivity.
  - intros Hle.
    assert (Hlt : (session_expiresAt sess <? now) = false) by (apply Z.ltb_ge; lia).
    unfold refreshToken, findByRefreshToken, prisma_session_findUnique_token,
      prisma_user_findUnique_id, revokeSession, prisma_session_updateMany_revoke,
      catch_, bind, db, ret, throw.
    rewrite Hup, (find_session_by_token_In _ _ Hnd Hin), Hrev, Hlt. cbv beta iota.
    rewrite Hup. cbv beta iota.
    split.
    + destruct (find_user_by_id (session_userId sess) (users s)) as [u|];
        [destruct (user_isActive u && negb (user_isLocked u))|];
        cbv beta iota; rewrite ?Hup; cbv beta iota;
        try (destruct (0 <? _)); cbn; discriminate.
    + intros u Hu Ha Hl. rewrite Hu, Ha, Hl. reflexivity.
Qed.

(** C8: whenever [refreshToken] succeeds it writes nothing: the store, and
    so the presented session with its refresh-token value, revocation flag
    and expiry, is left as it was, and the result is an access token minted
    for the session's owner. *)
Theorem refreshToken_success_frame (s s' : Store) (t : string) (now : Z) (tok : Token) :
  refreshToken t now s = (s', Ok tok) ->
  s' = s /\
  exists sess user,
    find_session_by_token t (sessions s) = Some sess /\
    session_isRevoked sess = false /\ now <= session_expiresAt sess /\
    find_user_by_id (session_userId sess) (users s) = Some user /\
    user_isActive user = true /\ user_isLocked user = false /\
    tok = generateAccessToken user now.
Proof.
  intros H.
  cbv beta iota zeta delta [refreshToken findByRefreshToken prisma_session_findUnique_token
    prisma_user_findUnique_id revokeSession revokeAllSessionsByUserId
    prisma_session_updateMany_revoke catch_ bind db throw ret is_AuthError andb negb] in H.
  destruct (db_up s) eqn:Hup; cbv beta iota in H; [|congruence].
  destruct (find_session_by_token t (sessions s)) as [sess|] eqn:Hf;
    (rewrite ?Hup in H; cbv beta iota in H); [|congruence].
  destruct (session_isRevoked sess) eqn:Hr; (rewrite ?Hup in H; cbv beta iota in H); [congruence|].
  destruct (session_expiresAt sess <? now) eqn:He; (rewrite ?Hup in H; cbv beta iota in H);
    [destruct (0 <? _); (rewrite ?Hup in H; cbv beta iota in H); congruence|].
  destruct (find_user_by_id (session_userId sess) (users s)) as [user|] eqn:Hu;
    (rewrite ?Hup in H; cbv beta iota in H); [|destruct (0 <? _); (rewrite ?Hup in H; cbv beta iota in H); congruence].
  destruct (user_isActive user) eqn:Ha; destruct (user_isLocked user) eqn:Hl;
    (rewrite ?Hup in H; cbv beta iota in H); try (destruct (0 <? _); (rewrite ?Hup in H; cbv beta iota in H); congruence).
  inversion H; subst. split; [reflexivity|].
  exists sess, user. apply Z.ltb_ge in He. repeat split; assumption.
Qed.

(** *** logout *)

(** The store after [logout t]: the session found by the token, if any, is
    revoked (by id, with no owner filter). *)
Definition logout_state (t : string) (s : Store) : Store :=
  if db_up s then
    match find_session_by_token t (sessions s) with
    | Some sess =>
        mkStore (users s)
          (map (fun x => if String.eqb (session_id x) (session_id sess) && true
                         then set_revoked x else x) (sessions s))
          (db_up s) (next_id s)
    | None => s
    end
  else s.

Lemma logout_spec (t : string) (s : Store) :
  logout t s = (logout_state t s, Ok tt).
Proof.
  unfold logout_state.
  cbv beta iota zeta delta [logout findByRefreshToken prisma_session_findUnique_token
    revokeSession prisma_session_updateMany_revoke catch_ bind db throw ret].
  destruct (db_up s) eqn:Hup; [|reflexivity].
  destruct (find_session_by_token t (sessions s)) as [sess|]; [|reflexivity].
  cbv beta iota. rewrite Hup. cbv beta iota. destruct (0 <? _); reflexivity.
Qed.

(** C7: [logout] never throws, whatever the token and the state of the
    database; a second [logout] with the same token also succeeds and leaves
    the store exactly as the first left it; a session found by the token is
    revoked. *)
Theorem logout_total_idempotent (s : Store) (t : string) :
  let s1 := fst (logout t s) in
  snd (logout t s) = Ok tt /\
  snd (logout t s1) = Ok tt /\
  fst (logout t s1) = s1 /\
  (forall sess, db_up s = true -> find_session_by_token t (sessions s) = Some sess ->
     find_session_by_token t (sessions s1) = Some (set_revoked sess)).
Proof.
  intros s1. unfold s1. rewrite !logout_spec. simpl.
  split; [reflexivity|split; [reflexivity|]].
  destruct (db_up s) eqn:Hup.
  2:{ assert (E : logout_state t s = s) by (unfold logout_state; rewrite Hup; reflexivity).
      rewrite !E. split; [reflexivity | intros ? Habs; discriminate Habs]. }
  destruct (find_session_by_token t (sessions s)) as [sess|] eqn:Hf.
  - set (p := fun x : Session => (String.eqb (session_id x) (session_id sess) && true)%bool).
    assert (E : logout_state t s
                = mkStore (users s) (map (fun x => if p x then set_revoked x else x) (sessions s))
                          (db_up s) (next_id s))
      by (unfold logout_state; rewrite Hup, Hf; reflexivity).
    assert (Hkey : forall x, (fun y => String.eqb (session_refreshToken y) t)
                               (if p x then set_revoked x else x)
                             = String.eqb (session_refreshToken x) t)
      by (intros x; destruct (p x); reflexivity).
    assert (Hf1 : find_session_by_token t
                    (map (fun x => if p x then set_revoked x else x) (sessions s))
                  = Some (set_revoked sess)).
    { unfold find_session_by_token. rewrite (find_map_same_key _ _ _ Hkey).
      fold (find_session_by_token t (sessions s)). rewrite Hf. simpl.
      unfold p. rewrite String.eqb_refl. reflexivity. }
    rewrite E. split.
    + unfold logout_state at 1. simpl. rewrite Hup, Hf1. simpl.
      fold p. rewrite map_revoke_idempotent. reflexivity.
    + intros sess' _ Hs. inversion Hs; subst. exact Hf1.
  - assert (E : logout_state t s = s) by (unfold logout_state; rewrite Hup, Hf; reflexivity).
    rewrite !E. split; [reflexivity | intros ? _ Habs; discriminate Habs].
Qed.

(** *** changePassword *)

Definition password_change_state (userId hashed : string) (s : Store) : Store :=
  mkStore (map (fun x => if String.eqb (user_id x) userId then password_patch hashed x else x)
               (users s))
          (map (fun x => if revoke_all_where userId x then set_revoked x else x) (sessions s))
          (db_up s) (next_id s).

Lemma changePassword_ok (s : Store) (userId cur new : string) (user : User) :
  db_up s = true ->
  find_user_by_id userId (users s) = Some user ->
  argon2_verify (user_password user) cur = true ->
  changePassword userId cur new s = (password_change_state userId (argon2_hash new) s, Ok tt).
Proof.
  intros Hup Hu Hv.
  cbv beta iota zeta delta [changePassword prisma_user_findUnique_id prisma_user_update
    revokeAllSessionsByUserId prisma_session_updateMany_revoke catch_ bind db throw ret negb].
  rewrite Hup. cbv beta iota. rewrite Hu, Hv. cbv beta iota. rewrite Hup, Hu.
  cbv beta iota. simpl. unfold password_change_state. rewrite ?Hup. reflexivity.
Qed.

Lemma find_user_by_id_patch (l : list User) (userId : string) (f : User -> User) (u : User) :
  (forall x, user_id (f x) = user_id x) ->
  find_user_by_id userId l = Some u ->
  find_user_by_id userId
    (map (fun x => if String.eqb (user_id x) userId then f x else x) l) = Some (f u).
Proof.
  intros Hf Hu. unfold find_user_by_id in *.
  rewrite find_map_same_key.
  - rewrite Hu. simpl. apply find_some in Hu as [_ Hid]. rewrite Hid. reflexivity.
  - intros x. destruct (String.eqb (user_id x) userId) eqn:E; [rewrite Hf|]; rewrite E; reflexivity.
Qed.

(** C6: with the right current password, [changePassword] stores the new
    digest and revokes every session of the user, so that presenting any
    refresh token of the user issued before the change to [refreshToken]
    fails with TOKEN_REUSE_DETECTED; with a wrong current password it fails
    with INVALID_PASSWORD and writes nothing; for an unknown id it fails with
    USER_NOT_FOUND and writes nothing. *)
Theorem changePassword_revokes_all (s : Store) (userId cur new : string) :
  db_up s = true ->
  NoDup (map session_refreshToken (sessions s)) ->
  (forall user, find_user_by_id userId (users s) = Some user ->
     argon2_verify (user_password user) cur = true ->
     let s' := fst (changePassword userId cur new s) in
     snd (changePassword userId cur new s) = Ok tt /\
     (exists user', find_user_by_id userId (users s') = Some user' /\
                    user_password user' = argon2_hash new) /\
     (forall x, In x (sessions s') -> session_userId x = userId -> session_isRevoked x = true) /\
     (forall sess now, In sess (sessions s) -> session_userId sess = userId ->
        snd (refreshToken (session_refreshToken sess) now s')
        = Throw (AuthError TOKEN_REUSE_DETECTED)))
  /\ (forall user, find_user_by_id userId (users s) = Some user ->
        argon2_verify (user_password user) cur = false ->
        changePassword userId cur new s = (s, Throw (AuthError INVALID_PASSWORD)))
  /\ (find_user_by_id userId (users s) = None ->
        changePassword userId cur new s = (s, Throw (AuthError USER_NOT_FOUND))).
Proof.
  intros Hup Hnd. split; [|split].
  - intros user Hu Hv s'. unfold s'.
    rewrite (changePassword_ok s userId cur new user Hup Hu Hv). simpl.
    split; [reflexivity|split; [|split]].
    + exists (password_patch (argon2_hash new) user). split; [|reflexivity].
      apply find_user_by_id_patch; [intros x; reflexivity | exact Hu].
    + intros x Hx Hxu. exact (revoke_all_where_In _ _ x Hx Hxu).
    + intros sess now Hin Hsu.
      set (g := fun x => if revoke_all_where userId x then set_revoked x else x).
      assert (Hgk : forall x, session_refreshToken (g x) = session_refreshToken x)
        by (intros x; unfold g; destruct (revoke_all_where userId x); reflexivity).
      assert (Hin' : In (g sess) (sessions (password_change_state userId (argon2_hash new) s)))
        by (apply in_map; exact Hin).
      assert (Hnd' : NoDup (map session_refreshToken
                              (sessions (password_change_state userId (argon2_hash new) s)))).
      { simpl. fold g. rewrite map_map. rewrite (map_ext _ _ Hgk). exact Hnd. }
      assert (Hr : session_isRevoked (g sess) = true)
        by (apply (revoke_all_where_In userId (sessions s)); [apply in_map; exact Hin |];
            unfold g; destruct (revoke_all_where userId sess); exact Hsu).
      rewrite <- (Hgk sess).
      rewrite (refreshToken_on_revoked (password_change_state userId (argon2_hash new) s)
                 _ now Hup Hnd' Hin' Hr). reflexivity.
  - intros user Hu Hv.
    cbv beta iota zeta delta [changePassword prisma_user_findUnique_id catch_ bind db throw
      ret negb is_AuthError].
    rewrite Hup, Hu, Hv. reflexivity.
  - intros Hu.
    cbv beta iota zeta delta [changePassword prisma_user_findUnique_id catch_ bind db throw
      ret negb is_AuthError].
    rewrite Hup, Hu. reflexivity.
Qed.

(** *** login and the lockout policy *)

(** Consecutive [login] calls for one email, each with its password and
    time; returns the final store and the results in order. *)
Fixpoint login_seq (email : string) (attempts : list (string * Z)) (s : Store)
    : Store * list (Result AuthResponse) :=
  match attempts with
  | [] => (s, [])
  | (pw, now) :: rest =>
      let '(s1, r) := login email pw now s in
      let '(s2, rs) := login_seq email rest s1 in
      (s2, r :: rs)
  end.

Definition failed_attempt_user (u : User) (now : Z) : User :=
  let n := user_failedLoginAttempts u + 1 in
  failed_login_patch n
    (if maxFailedLoginAttempts cfg <=? n then Some (now + accountLockoutDuration cfg) else None) u.

Lemma find_user_by_id_In (l : list User) (u : User) :
  In u l -> exists v, find_user_by_id (user_id u) l = Some v.
Proof.
  intros Hin. unfold find_user_by_id.
  destruct (find (fun x => String.eqb (user_id x) (user_id u)) l) as [v|] eqn:Hf.
  - exists v. reflexivity.
  - exfalso. apply find_none with (x := u) in Hf; [|exact Hin].
    rewrite String.eqb_refl in Hf. discriminate Hf.
Qed.

Lemma login_wrong_password (s : Store) (email pw : string) (now : Z) (u : User) :
  db_up s = true ->
  find_user_by_email (toLowerCase email) (users s) = Some u ->
  user_isLocked u = false ->
  user_isActive u = true ->
  argon2_verify (user_password u) pw = false ->
  exists s', login email pw now s = (s', Throw (AuthError INVALID_CREDENTIALS)) /\
             db_up s' = true /\
             find_user_by_email (toLowerCase email) (users s') = Some (failed_attempt_user u now).
Proof.
  intros Hup Hf Hl Ha Hv.
  destruct s as [us ss up nid]; simpl in *; subst up.
  pose proof (find_some _ _ Hf) as [Hin Hem].
  destruct (find_user_by_id_In _ _ Hin) as [v Hv'].
  set (patch := failed_login_patch (user_failedLoginAttempts u + 1)
                  (if maxFailedLoginAttempts cfg <=? user_failedLoginAttempts u + 1
                   then Some (now + accountLockoutDuration cfg) else None)).
  exists (mkStore (map (fun x => if String.eqb (user_id x) (user_id u) then patch x else x) us)
                  ss true nid).
  split; [|split; [reflexivity|]].
  - cbv beta iota zeta delta [login prisma_user_findUnique_email handleFailedLogin
      prisma_user_update catch_ bind db throw ret negb is_AuthError].
    simpl. rewrite Hf, Hl, Ha, Hv. simpl. rewrite Hf. simpl. rewrite Hv'. reflexivity.
  - simpl. unfold find_user_by_email. rewrite find_map_same_key.
    + unfold find_user_by_email in Hf. rewrite Hf. simpl.
      rewrite String.eqb_refl. reflexivity.
    + intros x. destruct (String.eqb (user_id x) (user_id u)); [|reflexivity].
      unfold patch, failed_login_patch. destruct (_ <=? _); reflexivity.
Qed.

Lemma login_while_locked (s : Store) (email pw : string) (now lockedUntil : Z) (u : User) :
  db_up s = true ->
  find_user_by_email (toLowerCase email) (users s) = Some u ->
  user_isLocked u = true ->
  user_lockedUntil u = Some lockedUntil ->
  now < lockedUntil ->
  login email pw now s = (s, Throw (AuthError ACCOUNT_LOCKED)).
Proof.
  intros Hup Hf Hl Hlu Hnow.
  cbv beta iota zeta delta [login prisma_user_findUnique_email catch_ bind db throw ret
    is_AuthError].
  rewrite Hup, Hf, Hl, Hlu. apply Z.ltb_lt in Hnow. rewrite Hnow. reflexivity.
Qed.

(** C4: from an active, unlocked user with no failed attempt, five
    consecutive logins with a wrong password each fail with
    INVALID_CREDENTIALS and leave the account locked until 15 minutes after
    the fifth attempt; a sixth login before that time, with any password,
    fails with ACCOUNT_LOCKED. *)
Theorem login_lockout_after_five (s : Store) (email pw : string) (u : User)
    (t1 t2 t3 t4 t5 : Z) :
  maxFailedLoginAttempts cfg = 5 ->
  accountLockoutDuration cfg = 15 * 60 * 1000 ->
  db_up s = true ->
  find_user_by_email (toLowerCase email) (users s) = Some u ->
  user_isActive u = true ->
  user_isLocked u = false ->
  user_failedLoginAttempts u = 0 ->
  argon2_verify (user_password u) pw = false ->
  let '(s5, rs) := login_seq email [(pw, t1); (pw, t2); (pw, t3); (pw, t4); (pw, t5)] s in
  rs = repeat (Throw (AuthError INVALID_CREDENTIALS)) 5 /\
  (exists u5, find_user_by_email (toLowerCase email) (users s5) = Some u5 /\
              user_isLocked u5 = true /\
              user_lockedUntil u5 = Some (t5 + 15 * 60 * 1000)) /\
  (forall pw6 t6, t6 < t5 + 15 * 60 * 1000 ->
     snd (login email pw6 t6 s5) = Throw (AuthError ACCOUNT_LOCKED)).
Proof.
  intros Hmax Hdur Hup Hf Ha Hl H0 Hv.
  unfold failed_attempt_user in *.
  destruct (login_wrong_password s email pw t1 u Hup Hf Hl Ha Hv) as [s1 [E1 [U1 F1]]].
  unfold failed_attempt_user in F1. rewrite Hmax, H0 in F1. simpl in F1.
  destruct (login_wrong_password s1 email pw t2 _ U1 F1 Hl Ha Hv) as [s2 [E2 [U2 F2]]].
  unfold failed_attempt_user in F2. rewrite Hmax in F2. simpl in F2.
  destruct (login_wrong_password s2 email pw t3 _ U2 F2 Hl Ha Hv) as [s3 [E3 [U3 F3]]].
  unfold failed_attempt_user in F3. rewrite Hmax in F3. simpl in F3.
  destruct (login_wrong_password s3 email pw t4 _ U3 F3 Hl Ha Hv) as [s4 [E4 [U4 F4]]].
  unfold failed_attempt_user in F4. rewrite Hmax in F4. simpl in F4.
  destruct (login_wrong_password s4 email pw t5 _ U4 F4 Hl Ha Hv) as [s5 [E5 [U5 F5]]].
  unfold failed_attempt_user in F5. rewrite Hmax, Hdur in F5. simpl in F5.
  simpl. rewrite E1, E2, E3, E4, E5.
  split; [reflexivity|split].
  - eexists. split; [exact F5|]. split; reflexivity.
  - intros pw6 t6 H6.
    rewrite (login_while_locked s5 email pw6 t6 (t5 + 15 * 60 * 1000) _ U5 F5 eq_refl eq_refl H6).
    reflexivity.
Qed.

(** *** register *)


(** *** Store relations preserved by whole operations *)

(** [m] relates every store to the store it leaves. *)
Definition steps (R : Store -> Store -> Prop) {A} (m : M A) : Prop :=
  forall s, R s (fst (m s)).

Lemma steps_ret (R : Store -> Store -> Prop) (Hr : forall s, R s s) {A} (a : A) :
  steps R (ret a).
Proof. intros s. apply Hr. Qed.

Lemma steps_throw (R : Store -> Store -> Prop) (Hr : forall s, R s s) {A} (e : Exn) :
  steps R (@throw A e).
Proof. intros s. apply Hr. Qed.

Lemma steps_bind (R : Store -> Store -> Prop) (Hr : forall s, R s s)
    (Ht : forall s1 s2 s3, R s1 s2 -> R s2 s3 -> R s1 s3) {A B} (m : M A) (k : A -> M B) :
  steps R m -> (forall a, steps R (k a)) -> steps R (bind m k).
Proof.
  intros Hm Hk s. specialize (Hm s). unfold bind.
  destruct (m s) as [s1 [a|e]]; simpl in *; [|exact Hm].
  eapply Ht; [exact Hm | apply Hk].
Qed.

Lemma steps_catch (R : Store -> Store -> Prop) (Hr : forall s, R s s)
    (Ht : forall s1 s2 s3, R s1 s2 -> R s2 s3 -> R s1 s3) {A} (m : M A) (h : Exn -> M A) :
  steps R m -> (forall e, steps R (h e)) -> steps R (catch_ m h).
Proof.
  intros Hm Hh s. specialize (Hm s). unfold catch_.
  destruct (m s) as [s1 [a|e]]; simpl in *; [exact Hm|].
  eapply Ht; [exact Hm | apply Hh].
Qed.

Lemma steps_read (R : Store -> Store -> Prop) (Hr : forall s, R s s) {A} (m : M A) :
  (forall s, fst (m s) = s) -> steps R m.
Proof. intros H s. rewrite H. apply Hr. Qed.

Lemma user_findUnique_email_read (e : string) (s : Store) :
  fst (prisma_user_findUnique_email e s) = s.
Proof. unfold prisma_user_findUnique_email, db. destruct (db_up s); reflexivity. Qed.

Lemma user_findUnique_id_read (i : string) (s : Store) :
  fst (prisma_user_findUnique_id i s) = s.
Proof. unfold prisma_user_findUnique_id, db. destruct (db_up s); reflexivity. Qed.

Lemma session_findUnique_token_read (t : string) (s : Store) :
  fst (prisma_session_findUnique_token t s) = s.
Proof. unfold prisma_session_findUnique_token, db. destruct (db_up s); reflexivity. Qed.

Lemma session_findUnique_id_read (i : string) (s : Store) :
  fst (prisma_session_findUnique_id i s) = s.
Proof. unfold prisma_session_findUnique_id, db. destruct (db_up s); reflexivity. Qed.

Lemma session_findMany_active_read (u : string) (now : Z) (s : Store) :
  fst (prisma_session_findMany_active u now s) = s.
Proof. unfold prisma_session_findMany_active, db. destruct (db_up s); reflexivity. Qed.

Lemma session_count_read (p : Session -> bool) (s : Store) :
  fst (prisma_session_count p s) = s.
Proof. unfold prisma_session_count, db. destruct (db_up s); reflexivity. Qed.

(** The session writes leave the users alone, the user writes the sessions. *)
Lemma session_create_users (u t : string) (e now : Z) (s : Store) :
  users (fst (prisma_session_create u t e now s)) = users s.
Proof.
  unfold prisma_session_create, db. destruct (db_up s); [|reflexivity].
  destruct (find_session_by_token t (sessions s)); reflexivity.
Qed.

Lemma createSession_users (u : string) (e now : Z) (s : Store) :
  users (fst (createSession u e now s)) = users s.
Proof.
  unfold createSession, catch_. rewrite <- (session_create_users u (uuidv4 (next_id s)) e now s).
  destruct (prisma_session_create u (uuidv4 (next_id s)) e now s) as [s1 [a|x]]; reflexivity.
Qed.

Lemma session_updateMany_users (p : Session -> bool) (s : Store) :
  users (fst (prisma_session_updateMany_revoke p s)) = users s.
Proof. unfold prisma_session_updateMany_revoke, db. destruct (db_up s); reflexivity. Qed.

Lemma session_update_expiry_users (i : string) (e : Z) (s : Store) :
  users (fst (prisma_session_update_expiry i e s)) = users s.
Proof.
  unfold prisma_session_update_expiry, db. destruct (db_up s); [|reflexivity].
  destruct (find_session_by_id i (sessions s)); reflexivity.
Qed.

Lemma session_deleteMany_users (now : Z) (s : Store) :
  users (fst (prisma_session_deleteMany_expired now s)) = users s.
Proof. unfold prisma_session_deleteMany_expired, db. destruct (db_up s); reflexivity. Qed.

Lemma user_create_sessions (e p : string) (n : option string) (s : Store) :
  sessions (fst (prisma_user_create e p n s)) = sessions s.
Proof.
  unfold prisma_user_create, db. destruct (db_up s); [|reflexivity].
  destruct (find_user_by_email e (users s)); reflexivity.
Qed.

Lemma user_update_sessions (i : string) (f : User -> User) (s : Store) :
  sessions (fst (prisma_user_update i f s)) = sessions s.
Proof.
  unfold prisma_user_update, db. destruct (db_up s); [|reflexivity].
  destruct (find_user_by_id i (users s)); reflexivity.
Qed.

(** **** Invariant: a locked account always records when its lock ends *)

Definition user_lock_ok (u : User) : Prop :=
  user_isLocked u = true -> user_lockedUntil u <> None.

Definition users_lock_ok (s : Store) : Prop :=
  forall u, In u (users s) -> user_lock_ok u.

Definition lock_inv (s s' : Store) : Prop := users_lock_ok s -> users_lock_ok s'.

Lemma lock_inv_refl (s : Store) : lock_inv s s.
Proof. intros H. exact H. Qed.

Lemma lock_inv_trans (s1 s2 s3 : Store) : lock_inv s1 s2 -> lock_inv s2 s3 -> lock_inv s1 s3.
Proof. intros H1 H2 H. apply H2, H1, H. Qed.

Lemma lock_users_frame {A} (m : M A) :
  (forall s, users (fst (m s)) = users s) -> steps lock_inv m.
Proof. intros H s Hs u Hu. rewrite H in Hu. apply Hs, Hu. Qed.

Definition patch_lock_ok (f : User -> User) : Prop :=
  forall u, user_lock_ok u -> user_lock_ok (f u).

Lemma lock_user_update (i : string) (f : User -> User) :
  patch_lock_ok f -> steps lock_inv (prisma_user_update i f).
Proof.
  intros Hf s Hs. unfold prisma_user_update, db.
  destruct (db_up s); [|exact Hs].
  destruct (find_user_by_id i (users s)) as [w|]; [|exact Hs].
  intros u Hu. simpl in Hu. apply in_map_iff in Hu as [v [<- Hv]].
  destruct (String.eqb (user_id v) i); [apply Hf|]; apply Hs, Hv.
Qed.

Lemma lock_user_create (e p : string) (n : option string) :
  steps lock_inv (prisma_user_create e p n).
Proof.
  intros s Hs. unfold prisma_user_create, db.
  destruct (db_up s); [|exact Hs].
  destruct (find_user_by_email e (users s)) as [w|]; [exact Hs|].
  intros u Hu. simpl in Hu. apply in_app_or in Hu as [Hu|[<-|[]]].
  - apply Hs, Hu.
  - intros H. discriminate H.
Qed.

Lemma failed_login_patch_lock_ok (n : Z) (lock : option Z) :
  patch_lock_ok (failed_login_patch n lock).
Proof.
  intros u Hu. destruct lock as [l|]; simpl.
  - intros _. discriminate.
  - exact Hu.
Qed.

Lemma clear_lock_patch_lock_ok : patch_lock_ok clear_lock_patch.
Proof. intros u _ H. discriminate H. Qed.

Lemma password_patch_lock_ok (h : string) : patch_lock_ok (password_patch h).
Proof. intros u Hu. exact Hu. Qed.

Lemma profile_patch_lock_ok (n e : option string) : patch_lock_ok (profile_patch n e).
Proof. intros u Hu. exact Hu. Qed.

(** **** Invariant: a revoked session stays, revoked *)

Definition revoked_kept (s s' : Store) : Prop :=
  forall x, In x (sessions s) -> session_isRevoked x = true ->
  exists y, In y (sessions s') /\ session_id y = session_id x /\
            session_userId y = session_userId x /\
            session_refreshToken y = session_refreshToken x /\ session_isRevoked y = true.

Lemma revoked_kept_refl (s : Store) : revoked_kept s s.
Proof. intros x Hx Hr. exists x. repeat split; assumption. Qed.

Lemma revoked_kept_trans (s1 s2 s3 : Store) :
  revoked_kept s1 s2 -> revoked_kept s2 s3 -> revoked_kept s1 s3.
Proof.
  intros H1 H2 x Hx Hr.
  destruct (H1 x Hx Hr) as [y [Hy [Hi [Hu [Ht Hry]]]]].
  destruct (H2 y Hy Hry) as [z [Hz [Hi' [Hu' [Ht' Hrz]]]]].
  exists z. repeat split; congruence.
Qed.

Lemma revoked_sessions_frame {A} (m : M A) :
  (forall s, sessions (fst (m s)) = sessions s) -> steps revoked_kept m.
Proof. intros H s. unfold revoked_kept. rewrite H. apply revoked_kept_refl. Qed.

Lemma revoked_map (f : Session -> Session) (s s' : Store) :
  sessions s' = map f (sessions s) ->
  (forall x, session_isRevoked x = true ->
     session_id (f x) = session_id x /\ session_userId (f x) = session_userId x /\
     session_refreshToken (f x) = session_refreshToken x /\ session_isRevoked (f x) = true) ->
  revoked_kept s s'.
Proof.
  intros Hs Hf x Hx Hr. exists (f x). rewrite Hs. split; [apply in_map, Hx|]. apply Hf, Hr.
Qed.

Lemma revoked_session_create (u t : string) (e now : Z) :
  steps revoked_kept (prisma_session_create u t e now).
Proof.
  intros s. unfold prisma_session_create, db.
  destruct (db_up s); [|apply revoked_kept_refl].
  destruct (find_session_by_token t (sessions s)); [apply revoked_kept_refl|].
  intros x Hx Hr. exists x. simpl. split; [apply in_or_app; left; exact Hx|].
  repeat split; assumption.
Qed.

Lemma revoked_createSession (u : string) (e now : Z) :
  steps revoked_kept (createSession u e now).
Proof.
  intros s. unfold createSession, catch_.
  pose proof (revoked_session_create u (uuidv4 (next_id s)) e now s) as H.
  destruct (prisma_session_create u (uuidv4 (next_id s)) e now s) as [s1 [a|x]]; exact H.
Qed.

Lemma revoked_updateMany (p : Session -> bool) :
  steps revoked_kept (prisma_session_updateMany_revoke p).
Proof.
  intros s. unfold prisma_session_updateMany_revoke, db.
  destruct (db_up s); [|apply revoked_kept_refl].
  apply (revoked_map (fun x => if p x then set_revoked x else x)); [reflexivity|].
  intros x Hr. destruct (p x); [rewrite (set_revoked_id x Hr)|]; repeat split; assumption.
Qed.

Lemma revoked_update_expiry (i : string) (e : Z) :
  steps revoked_kept (prisma_session_update_expiry i e).
Proof.
  intros s. unfold prisma_session_update_expiry, db.
  destruct (db_up s); [|apply revoked_kept_refl].
  destruct (find_session_by_id i (sessions s)); [|apply revoked_kept_refl].
  apply (revoked_map (fun y => if String.eqb (session_id y) i then set_expiresAt e y else y));
    [reflexivity|].
  intros x Hr. destruct (String.eqb (session_id x) i); repeat split; assumption.
Qed.

Create HintDb lock_steps.
#[local] Hint Resolve lock_inv_refl lock_user_update lock_user_create
  failed_login_patch_lock_ok clear_lock_patch_lock_ok password_patch_lock_ok
  profile_patch_lock_ok : lock_steps.
#[local] Hint Extern 1 (steps lock_inv _) =>
  apply lock_users_frame; intros;
  first [ apply session_create_users | apply createSession_users | apply session_updateMany_users
        | apply session_update_expiry_users | apply session_deleteMany_users ] : lock_steps.

Create HintDb revoked_steps.
#[local] Hint Resolve revoked_kept_refl revoked_session_create revoked_createSession
  revoked_updateMany revoked_update_expiry : revoked_steps.
#[local] Hint Extern 1 (steps revoked_kept _) =>
  apply revoked_sessions_frame; intros;
  first [ apply user_create_sessions | apply user_update_sessions ] : revoked_steps.

(** Walks an operation built from [ret], [throw], [bind], [catch_], [if] and
    [match], closing the Prisma calls with the lemmas of [db]. *)
Ltac steps_run Hr Ht db :=
  repeat (intros; cbv zeta;
    first
    [ solve [auto with db]
    | apply (steps_bind _ Hr Ht)
    | apply (steps_catch _ Hr Ht)
    | apply (steps_ret _ Hr)
    | apply (steps_throw _ Hr)
    | apply (steps_read _ Hr); intros;
      first [ apply user_findUnique_email_read | apply user_findUnique_id_read
            | apply session_findUnique_token_read | apply session_findUnique_id_read
            | apply session_findMany_active_read | apply session_count_read ]
    | match goal with
      | |- steps _ (if ?b then _ else _) => destruct b
      | |- steps _ (match ?x with _ => _ end) => destruct x
      end ]).

Ltac unfold_ops :=
  unfold login, register, register_with, refreshToken, logout, changePassword,
    updateUserProfile, AuthService_revokeSession, revokeAllSessions,
    cleanupExpiredSessions, updateSessionExpiry, handleFailedLogin, unlockAccount,
    resetFailedLoginAttempts, createUserSession, findByRefreshToken, revokeSession,
    revokeAllSessionsByUserId.

(** X1: every state-changing operation of the auth module keeps the
    invariant that a locked account has a [lockedUntil] date: [login],
    [register], [refreshToken], [logout], [changePassword],
    [updateUserProfile], both revocation methods of [AuthService],
    [cleanupExpiredSessions] and [updateSessionExpiry]. *)
Theorem lock_invariant_preserved (s : Store) :
  users_lock_ok s ->
  (forall email pw now, users_lock_ok (fst (login email pw now s))) /\
  (forall email pw name now, users_lock_ok (fst (register email pw name now s))) /\
  (forall t now, users_lock_ok (fst (refreshToken t now s))) /\
  (forall t, users_lock_ok (fst (logout t s))) /\
  (forall userId cur new, users_lock_ok (fst (changePassword userId cur new s))) /\
  (forall userId name email, users_lock_ok (fst (updateUserProfile userId name email s))) /\
  (forall userId sessionId, users_lock_ok (fst (AuthService_revokeSession userId sessionId s))) /\
  (forall userId, users_lock_ok (fst (revokeAllSessions userId s))) /\
  (forall now, users_lock_ok (fst (cleanupExpiredSessions now s))) /\
  (forall sessionId e, users_lock_ok (fst (updateSessionExpiry sessionId e s))).
Proof.
  intros Hs.
  repeat split; intros;
    match goal with |- users_lock_ok (fst (?m s)) => enough (H : steps lock_inv m) by exact (H s Hs) end;
    unfold_ops; steps_run lock_inv_refl lock_inv_trans lock_steps.
Qed.

(** X2: no operation other than [cleanupExpiredSessions] deletes or
    un-revokes a revoked session: after [login], [register], [refreshToken],
    [logout], [changePassword], [updateUserProfile], the revocation methods
    and [updateSessionExpiry], every previously revoked session is still
    stored, with the same id, owner and refresh token, and still revoked. *)
Theorem revoked_sessions_persist (s : Store) :
  (forall email pw now, revoked_kept s (fst (login email pw now s))) /\
  (forall email pw name now, revoked_kept s (fst (register email pw name now s))) /\
  (forall t now, revoked_kept s (fst (refreshToken t now s))) /\
  (forall t, revoked_kept s (fst (logout t s))) /\
  (forall userId cur new, revoked_kept s (fst (changePassword userId cur new s))) /\
  (forall userId name email, revoked_kept s (fst (updateUserProfile userId name email s))) /\
  (forall userId sessionId, revoked_kept s (fst (AuthService_revokeSession userId sessionId s))) /\
  (forall userId, revoked_kept s (fst (revokeAllSessions userId s))) /\
  (forall sessionId e, revoked_kept s (fst (updateSessionExpiry sessionId e s))).
Proof.
  repeat split; intros;
    match goal with |- revoked_kept s (fst (?m s)) => enough (H : steps revoked_kept m) by exact (H s) end;
    unfold_ops; steps_run revoked_kept_refl revoked_kept_trans revoked_steps.
Qed.

(** *** Login and register, run to completion *)

Lemma bind_Ok {A B} (m : M A) (k : A -> M B) (s s1 : Store) (a : A) :
  m s = (s1, Ok a) -> bind m k s = k a s1.
Proof. intros H. unfold bind. rewrite H. reflexivity. Qed.

Lemma catch_Ok {A} (m : M A) (h : Exn -> M A) (s s1 : Store) (a : A) :
  m s = (s1, Ok a) -> catch_ m h s = (s1, Ok a).
Proof. intros H. unfold catch_. rewrite H. reflexivity. Qed.

Lemma user_update_found (us : list User) (ss : list Session) (n : nat)
    (i : string) (f : User -> User) (v : User) :
  find_user_by_id i us = Some v ->
  prisma_user_update i f (mkStore us ss true n) =
    (mkStore (map (fun x => if String.eqb (user_id x) i then f x else x) us) ss true n,
     Ok (f v)).
Proof. intros H. unfold prisma_user_update, db. simpl. rewrite H. reflexivity. Qed.

Lemma createSession_fresh (us : list User) (ss : list Session) (n : nat)
    (userId : string) (e now : Z) :
  find_session_by_token (uuidv4 n) ss = None ->
  createSession userId e now (mkStore us ss true n) =
    (mkStore us (ss ++ [mkSession (cuid n) userId (uuidv4 n) false e now]) true (S n),
     Ok (mkSession (cuid n) userId (uuidv4 n) false e now)).
Proof.
  intros H. unfold createSession, catch_, prisma_session_create, db. simpl.
  rewrite H. reflexivity.
Qed.

Lemma find_email_update (us : list User) (e i : string) (f : User -> User) (u : User) :
  (forall x, user_email (f x) = user_email x) ->
  find_user_by_email e us = Some u ->
  find_user_by_email e (map (fun x => if String.eqb (user_id x) i then f x else x) us)
  = Some (if String.eqb (user_id u) i then f u else u).
Proof.
  intros Hf H. unfold find_user_by_email in *. rewrite find_map_same_key, H; [reflexivity|].
  intros x. destruct (String.eqb (user_id x) i); [rewrite Hf|]; reflexivity.
Qed.

Lemma find_id_update (us : list User) (i : string) (f : User -> User) :
  (forall x, user_id (f x) = user_id x) ->
  find_user_by_id i (map (fun x => if String.eqb (user_id x) i then f x else x) us)
  = option_map f (find_user_by_id i us).
Proof.
  intros Hf. unfold find_user_by_id.
  rewrite (find_map_same_key _ (fun x => if String.eqb (user_id x) i then f x else x)).
  - destruct (find (fun u => String.eqb (user_id u) i) us) as [v|] eqn:E; [|reflexivity].
    apply find_some in E as [_ E]. simpl. rewrite E. reflexivity.
  - intros x. cbn. destruct (String.eqb (user_id x) i) eqn:E; cbn; rewrite ?Hf, ?E; reflexivity.
Qed.

(** The session [createUserSession] adds for [userId] when the store's
    counter is [n]. *)
Definition new_session (userId : string) (n : nat) (now : Z) : Session :=
  mkSession (cuid n) userId (uuidv4 n) false (setDate_plus7 now) now.

Lemma login_ok_spec (s : Store) (email pw : string) (now : Z) (u : User) :
  db_up s = true ->
  find_user_by_email (toLowerCase email) (users s) = Some u ->
  user_isActive u = true ->
  argon2_verify (user_password u) pw = true ->
  (forall l, user_isLocked u = true -> user_lockedUntil u = Some l -> l <= now) ->
  find_session_by_token (uuidv4 (next_id s)) (sessions s) = None ->
  exists us',
    login email pw now s =
      (mkStore us' (sessions s ++ [new_session (user_id u) (next_id s) now]) true (S (next_id s)),
       Ok (mkAuthResponse (user_id u) (user_email u) (user_name u)
                          (generateAccessToken u now) (uuidv4 (next_id s)))) /\
    find_user_by_email (toLowerCase email) us' =
      Some (if user_isLocked u || (0 <? user_failedLoginAttempts u)
            then clear_lock_patch u else u).
Proof.
  intros Hup Hf Ha Hv Hl Hfresh.
  destruct s as [us ss up n]; simpl in *; subst up.
  pose proof (find_some _ _ Hf) as [Hin _].
  destruct (find_user_by_id_In _ _ Hin) as [v Hid].
  set (cl := fun l : list User =>
         map (fun x => if String.eqb (user_id x) (user_id u) then clear_lock_patch x else x) l).
  set (us1 := if user_isLocked u then cl us else us).
  assert (Hid1 : exists v1, find_user_by_id (user_id u) us1 = Some v1).
  { unfold us1, cl. destruct (user_isLocked u); [|eauto].
    rewrite find_id_update, Hid; [simpl; eauto | intros; reflexivity]. }
  destruct Hid1 as [v1 Hid1].
  assert (Hf1 : find_user_by_email (toLowerCase email) us1 =
                Some (if user_isLocked u then clear_lock_patch u else u)).
  { unfold us1, cl. destruct (user_isLocked u); [|exact Hf].
    rewrite (find_email_update _ _ _ _ u); [|intros; reflexivity|exact Hf].
    rewrite String.eqb_refl. reflexivity. }
  set (us2 := if 0 <? user_failedLoginAttempts u then cl us1 else us1).
  exists us2.
  assert (Hstep1 : (if user_isLocked u then
                      match user_lockedUntil u with
                      | Some lockedUntil =>
                          if now <? lockedUntil then throw (AuthError ACCOUNT_LOCKED)
                          else unlockAccount (user_id u)
                      | None => unlockAccount (user_id u)
                      end
                    else ret tt) (mkStore us ss true n) = (mkStore us1 ss true n, Ok tt)).
  { unfold us1. destruct (user_isLocked u) eqn:El; [|reflexivity].
    assert (Hu : unlockAccount (user_id u) (mkStore us ss true n) = (mkStore (cl us) ss true n, Ok tt)).
    { unfold unlockAccount. erewrite bind_Ok; [reflexivity|]. apply user_update_found, Hid. }
    destruct (user_lockedUntil u) as [l|] eqn:Elu; [|exact Hu].
    specialize (Hl l eq_refl eq_refl). apply Z.leb_le in Hl.
    rewrite Z.ltb_antisym, Hl. exact Hu. }
  assert (Hstep2 : (if 0 <? user_failedLoginAttempts u
                    then resetFailedLoginAttempts (user_id u) else ret tt) (mkStore us1 ss true n)
                   = (mkStore us2 ss true n, Ok tt)).
  { unfold us2. destruct (0 <? user_failedLoginAttempts u); [|reflexivity].
    unfold resetFailedLoginAttempts. erewrite bind_Ok; [reflexivity|].
    apply user_update_found, Hid1. }
  split.
  - unfold login. apply catch_Ok.
    erewrite bind_Ok; [|unfold prisma_user_findUnique_email, db; simpl; rewrite Hf; reflexivity].
    cbv beta iota.
    erewrite bind_Ok; [|exact Hstep1].
    rewrite Ha, Hv. cbv beta iota delta [negb].
    erewrite bind_Ok; [|exact Hstep2]. cbv beta.
    erewrite bind_Ok; [|unfold createUserSession; apply createSession_fresh, Hfresh].
    reflexivity.
  - unfold us2, cl. destruct (0 <? user_failedLoginAttempts u).
    + rewrite (find_email_update us1 _ (user_id u) clear_lock_patch _ (fun _ => eq_refl) Hf1).
      destruct (user_isLocked u); simpl; rewrite String.eqb_refl; reflexivity.
    + rewrite Bool.orb_false_r. exact Hf1.
Qed.

(** X3: [login] with the right password for an active account that is
    unlocked or whose lock has run out succeeds: it clears the lock and the
    failure count (when either is set), adds one session for the user that
    expires at [setDate_plus7 now] (seven days on in the server's local
    time) and whose refresh token is the one returned,
    and returns an access token minted for the user. *)
Theorem login_success (s : Store) (email pw : string) (now : Z) (u : User) :
  db_up s = true ->
  find_user_by_email (toLowerCase email) (users s) = Some u ->
  user_isActive u = true ->
  argon2_verify (user_password u) pw = true ->
  (forall l, user_isLocked u = true -> user_lockedUntil u = Some l -> l <= now) ->
  find_session_by_token (uuidv4 (next_id s)) (sessions s) = None ->
  exists s' r,
    login email pw now s = (s', Ok r) /\
    sessions s' = sessions s ++ [new_session (user_id u) (next_id s) now] /\
    resp_refreshToken r = session_refreshToken (new_session (user_id u) (next_id s) now) /\
    session_expiresAt (new_session (user_id u) (next_id s) now) = setDate_plus7 now /\
    resp_accessToken r = generateAccessToken u now /\
    (exists u', find_user_by_email (toLowerCase email) (users s') = Some u' /\
                user_id u' = user_id u /\ user_password u' = user_password u /\
                user_isLocked u' = false /\ user_failedLoginAttempts u' <= 0).
Proof.
  intros Hup Hf Ha Hv Hl Hfresh.
  destruct (login_ok_spec s email pw now u Hup Hf Ha Hv Hl Hfresh) as [us' [E F]].
  eexists; eexists. split; [exact E|]. simpl. repeat split; [reflexivity..|].
  eexists. split; [exact F|].
  destruct (user_isLocked u) eqn:El; simpl; [repeat split; discriminate|].
  destruct (0 <? user_failedLoginAttempts u) eqn:E0; simpl.
  - repeat split; discriminate.
  - apply Z.ltb_ge in E0. repeat split; assumption.
Qed.

(** X4: a [login] for an email whose [toLowerCase] form no user has, or for
    an unlocked account that is inactive, leaves the store as it was: the
    first fails with
    INVALID_CREDENTIALS without counting a failure anywhere, the second with
    ACCOUNT_INACTIVE whatever the password, without counting a failure. *)
Theorem login_rejections_leave_store (s : Store) (email pw : string) (now : Z) :
  db_up s = true ->
  (find_user_by_email (toLowerCase email) (users s) = None ->
     login email pw now s = (s, Throw (AuthError INVALID_CREDENTIALS))) /\
  (forall u, find_user_by_email (toLowerCase email) (users s) = Some u ->
     user_isLocked u = false -> user_isActive u = false ->
     login email pw now s = (s, Throw (AuthError ACCOUNT_INACTIVE))).
Proof.
  intros Hup. split.
  - intros Hf.
    cbv beta iota zeta delta [login handleFailedLogin prisma_user_findUnique_email
      catch_ bind db throw ret is_AuthError].
    rewrite Hup, Hf. cbv beta iota. rewrite Hup, Hf. reflexivity.
  - intros u Hf Hl Ha.
    cbv beta iota zeta delta [login prisma_user_findUnique_email catch_ bind db throw ret
      is_AuthError negb].
    rewrite Hup, Hf. cbv beta iota. rewrite Hl, Ha. reflexivity.
Qed.

Lemma find_app {A} (p : A -> bool) (l1 l2 : list A) :
  find p (l1 ++ l2) = match find p l1 with Some x => Some x | None => find p l2 end.
Proof. induction l1 as [|x r IH]; simpl; [reflexivity|]. destruct (p x); [reflexivity | exact IH]. Qed.

(** X5: a wrong password after the lock of an account has run out starts a
    new count: [login] first clears the lock, and [handleFailedLogin] reads
    the cleared record, so the account ends unlocked with one failed attempt
    (when the configured maximum is above one). *)
Theorem login_wrong_password_after_lock_expiry (s : Store) (email pw : string) (now l : Z)
    (u : User) :
  1 < maxFailedLoginAttempts cfg ->
  db_up s = true ->
  find_user_by_email (toLowerCase email) (users s) = Some u ->
  user_isActive u = true ->
  user_isLocked u = true ->
  user_lockedUntil u = Some l ->
  l <= now ->
  argon2_verify (user_password u) pw = false ->
  exists s', login email pw now s = (s', Throw (AuthError INVALID_CREDENTIALS)) /\
    find_user_by_email (toLowerCase email) (users s') =
      Some (mkUser (user_id u) (user_email u) (user_password u) (user_name u)
                   true false 1 None).
Proof.
  intros Hmax Hup Hf Ha Hl Hlu Hnow Hv.
  destruct s as [us ss up n]; simpl in *; subst up.
  pose proof (find_some _ _ Hf) as [Hin _].
  destruct (find_user_by_id_In _ _ Hin) as [v Hid].
  set (upd := fun (f : User -> User) (l0 : list User) =>
         map (fun x => if String.eqb (user_id x) (user_id u) then f x else x) l0).
  set (us1 := upd clear_lock_patch us).
  assert (Hf1 : find_user_by_email (toLowerCase email) us1 = Some (clear_lock_patch u)).
  { unfold us1, upd. rewrite (find_email_update _ _ _ _ u); [|intros; reflexivity|exact Hf].
    rewrite String.eqb_refl. reflexivity. }
  assert (Hid1 : find_user_by_id (user_id u) us1 = Some (clear_lock_patch v)).
  { unfold us1, upd. rewrite find_id_update, Hid; [reflexivity | intros; reflexivity]. }
  set (patch := failed_login_patch 1 None).
  exists (mkStore (upd patch us1) ss true n).
  unfold patch, us1, upd in *.
  split.
  - cbv beta iota zeta delta [login handleFailedLogin unlockAccount prisma_user_findUnique_email
      catch_ bind db throw ret is_AuthError negb].
    cbn [db_up users sessions next_id]. rewrite Hf. cbv beta iota. rewrite Hl, Hlu.
    apply Z.leb_le in Hnow. rewrite Z.ltb_antisym, Hnow. cbv beta iota delta [negb].
    rewrite user_update_found with (v := v) by exact Hid. cbv beta iota.
    rewrite Ha, Hv. cbv beta iota delta [negb]. cbn [db_up users sessions next_id]. rewrite Hf1. cbv beta iota.
    simpl user_failedLoginAttempts. simpl user_id.
    assert (Hm : (maxFailedLoginAttempts cfg <=? 0 + 1) = false) by (apply Z.leb_gt; lia).
    rewrite Hm. rewrite user_update_found with (v := clear_lock_patch v) by exact Hid1.
    reflexivity.
  - cbn [users]. rewrite (find_email_update _ _ (user_id u) (failed_login_patch 1 None) _
                      (fun _ => eq_refl) Hf1).
    simpl. rewrite String.eqb_refl, Ha. reflexivity.
Qed.

(** The user [prisma.user.create] stores for [register]. *)
Definition registered_user (email password : string) (name : option string) (n : nat) : User :=
  mkUser (cuid n) (toLowerCase email) (argon2_hash password) (name_or_null name)
         true false 0 None.

Lemma register_ok_spec (s : Store) (email pw : string) (name : option string) (now : Z) :
  db_up s = true ->
  find_user_by_email (toLowerCase email) (users s) = None ->
  find_session_by_token (uuidv4 (S (next_id s))) (sessions s) = None ->
  register email pw name now s =
    (mkStore (users s ++ [registered_user email pw name (next_id s)])
             (sessions s ++ [new_session (cuid (next_id s)) (S (next_id s)) now])
             true (S (S (next_id s))),
     Ok (mkAuthResponse (cuid (next_id s)) (toLowerCase email) (name_or_null name)
           (generateAccessToken (registered_user email pw name (next_id s)) now)
           (uuidv4 (S (next_id s))))).
Proof.
  intros Hup Hf Ht. destruct s as [us ss up n]; simpl in *; subst up.
  unfold register, register_with. apply catch_Ok.
  erewrite bind_Ok; [|unfold prisma_user_findUnique_email, db; simpl; rewrite Hf; reflexivity].
  cbv beta iota zeta.
  erewrite bind_Ok; [|reflexivity]. cbv beta.
  erewrite bind_Ok; [|unfold prisma_user_create, db; simpl; rewrite Hf; reflexivity].
  cbv beta iota zeta.
  erewrite bind_Ok; [|unfold createUserSession; apply createSession_fresh, Ht].
  reflexivity.
Qed.

Lemma register_ok_inv (s s1 : Store) (email pw : string) (name : option string) (now : Z)
    (r : AuthResponse) :
  register email pw name now s = (s1, Ok r) ->
  db_up s = true /\
  find_user_by_email (toLowerCase email) (users s) = None /\
  find_session_by_token (uuidv4 (S (next_id s))) (sessions s) = None.
Proof.
  intros H. destruct s as [us ss up n]. cbn [db_up users sessions next_id].
  cbv beta iota zeta delta [register register_with prisma_user_findUnique_email
    prisma_user_create createUserSession createSession prisma_session_create
    catch_ bind db throw ret is_AuthError] in H.
  cbn [db_up users sessions next_id] in H.
  destruct up; [|cbv beta iota zeta in H; discriminate H].
  destruct (find_user_by_email (toLowerCase email) us) as [x|] eqn:Ef;
    cbv beta iota zeta in H; [discriminate H|].
  cbn [db_up users sessions next_id] in H.
  rewrite Ef in H. cbv beta iota zeta in H. cbn [db_up users sessions next_id] in H.
  destruct (find_session_by_token (uuidv4 (S n)) ss) as [x|] eqn:Et;
    cbv beta iota zeta in H; [discriminate H|].
  auto.
Qed.

(** X6: a successful [register] stores one new user with the email as
    [toLowerCase] maps it, the hash of the password, active, unlocked and
    with no failed attempt, and one new session of that user expiring at
    [setDate_plus7 now] (seven days on in the server's local time),
    whose refresh token is the one returned; it succeeds only when no user
    had that lowercased email. *)
Theorem register_success (s s1 : Store) (email pw : string) (name : option string) (now : Z)
    (r : AuthResponse) :
  register email pw name now s = (s1, Ok r) ->
  find_user_by_email (toLowerCase email) (users s) = None /\
  users s1 = users s ++ [mkUser (resp_user_id r) (toLowerCase email) (argon2_hash pw)
                                (name_or_null name) true false 0 None] /\
  sessions s1 = sessions s ++ [mkSession (cuid (S (next_id s))) (resp_user_id r)
                                 (resp_refreshToken r) false (setDate_plus7 now) now] /\
  resp_user_email r = toLowerCase email.
Proof.
  intros H. destruct (register_ok_inv s s1 email pw name now r H) as [Hup [Hf Ht]].
  rewrite (register_ok_spec s email pw name now Hup Hf Ht) in H.
  inversion H; subst. simpl. repeat split; [exact Hf | reflexivity..].
Qed.

Lemma register_ok_users (s s1 : Store) (email pw : string) (name : option string) (now : Z)
    (r : AuthResponse) :
  register email pw name now s = (s1, Ok r) ->
  db_up s1 = true /\
  find_user_by_email (toLowerCase email) (users s1) =
    Some (registered_user email pw name (next_id s)) /\
  resp_user_id r = cuid (next_id s) /\ resp_user_email r = toLowerCase email.
Proof.
  intros H. destruct (register_ok_inv s s1 email pw name now r H) as [Hup [Hf Ht]].
  rewrite (register_ok_spec s email pw name now Hup Hf Ht) in H.
  inversion H; subst. simpl. repeat split.
  unfold find_user_by_email in *. rewrite find_app, Hf. simpl.
  rewrite String.eqb_refl. reflexivity.
Qed.

(** X7: registering again with an email that [toLowerCase] maps to the
    same string as a registered one (equal up to case, non-ASCII letters
    included) fails with USER_EXISTS and changes nothing. *)
Theorem register_twice_user_exists (s s1 : Store) (email email' pw pw' : string)
    (name name' : option string) (now now' : Z) (r : AuthResponse) :
  register email pw name now s = (s1, Ok r) ->
  toLowerCase email' = toLowerCase email ->
  register email' pw' name' now' s1 = (s1, Throw (AuthError USER_EXISTS)).
Proof.
  intros H He. destruct (register_ok_users s s1 email pw name now r H) as [Hup [Hf _]].
  cbv beta iota zeta delta [register register_with prisma_user_findUnique_email
    catch_ bind db throw ret is_AuthError].
  rewrite Hup, He, Hf. reflexivity.
Qed.

(** X8: after a successful [register], [login] with the same password and
    any email that [toLowerCase] maps to the same string (the email in any
    case) succeeds for the new user (given that argon2 verifies its own
    hashes and the next refresh token is not in use). *)
Theorem register_then_login (s s1 : Store) (email email' pw : string)
    (name : option string) (now now' : Z) (r : AuthResponse) :
  register email pw name now s = (s1, Ok r) ->
  argon2_verify (argon2_hash pw) pw = true ->
  toLowerCase email' = toLowerCase email ->
  find_session_by_token (uuidv4 (next_id s1)) (sessions s1) = None ->
  exists s2 r', login email' pw now' s1 = (s2, Ok r') /\
                resp_user_id r' = resp_user_id r /\ resp_user_email r' = resp_user_email r.
Proof.
  intros H Hv He Ht.
  destruct (register_ok_users s s1 email pw name now r H) as [Hup [Hf [Hid Hem]]].
  rewrite <- He in Hf.
  destruct (login_ok_spec s1 email' pw now' _ Hup Hf eq_refl Hv
              (fun l Hl _ => ltac:(discriminate Hl)) Ht) as [us' [E _]].
  eexists; eexists. split; [exact E|]. simpl. rewrite Hid, Hem. split; reflexivity.
Qed.

(** *** refreshToken on an unknown token or for an invalid owner *)

(** X9: [refreshToken] with a token no session has fails with
    INVALID_REFRESH_TOKEN and changes nothing; with the token of a live,
    unexpired session whose owner is missing, inactive or locked, it revokes
    that session and fails with USER_INVALID, after which presenting the
    same token is reported as TOKEN_REUSE_DETECTED. *)
Theorem refreshToken_invalid_paths (s : Store) (t : string) (sess : Session) (now : Z) :
  db_up s = true ->
  (find_session_by_token t (sessions s) = None ->
     refreshToken t now s = (s, Throw (AuthError INVALID_REFRESH_TOKEN))) /\
  (NoDup (map session_refreshToken (sessions s)) ->
   In sess (sessions s) ->
   session_isRevoked sess = false ->
   now <= session_expiresAt sess ->
   (forall u, find_user_by_id (session_userId sess) (users s) = Some u ->
              user_isActive u = false \/ user_isLocked u = true) ->
   let s' := mkStore (users s)
               (map (fun x => if String.eqb (session_id x) (session_id sess) && owner_filter None x
                              then set_revoked x else x) (sessions s))
               true (next_id s) in
   refreshToken (session_refreshToken sess) now s = (s', Throw (AuthError USER_INVALID)) /\
   forall now', snd (refreshToken (session_refreshToken sess) now' s') =
                Throw (AuthError TOKEN_REUSE_DETECTED)).
Proof.
  intros Hup. split.
  - intros Hf.
    cbv beta iota zeta delta [refreshToken findByRefreshToken prisma_session_findUnique_token
      catch_ bind db throw ret is_AuthError].
    rewrite Hup, Hf. reflexivity.
  - intros Hnd Hin Hrev Hexp Hown s'.
    pose proof (find_session_by_token_In _ _ Hnd Hin) as Hf.
    assert (Hexp' : (session_expiresAt sess <? now) = false) by (apply Z.ltb_ge; exact Hexp).
    split.
    + destruct s as [us ss up n]; simpl in *; subst up.
      cbv beta iota zeta delta [refreshToken findByRefreshToken prisma_session_findUnique_token
        prisma_user_findUnique_id revokeSession prisma_session_updateMany_revoke
        catch_ bind db throw ret is_AuthError].
      cbn [db_up users sessions next_id]. rewrite Hf. cbv beta iota. rewrite Hrev, Hexp'.
      cbv beta iota. cbn [db_up users sessions next_id].
      destruct (find_user_by_id (session_userId sess) us) as [u|] eqn:Eu.
      * destruct (Hown u eq_refl) as [Ha|Hl]; rewrite ?Ha, ?Hl; cbn [negb];
          rewrite ?Bool.andb_false_r, ?Bool.andb_false_l;
          do 3 (cbv beta iota zeta; cbn [db_up users sessions next_id]);
          (match goal with |- context [if 0 <? ?c then _ else _] => destruct (0 <? c) end;
           reflexivity).
      * do 3 (cbv beta iota zeta; cbn [db_up users sessions next_id]).
        match goal with |- context [if 0 <? ?c then _ else _] => destruct (0 <? c) end;
        reflexivity.
    + intros now'.
      assert (Hnd' : NoDup (map session_refreshToken (sessions s'))).
      { unfold s'. simpl. rewrite map_map.
        erewrite map_ext; [exact Hnd|]. intros x. destruct (_ && _); reflexivity. }
      assert (Hin' : In (set_revoked sess) (sessions s')).
      { unfold s'. simpl. apply in_map_iff. exists sess. split; [|exact Hin].
        rewrite String.eqb_refl. reflexivity. }
      change (session_refreshToken sess) with (session_refreshToken (set_revoked sess)).
      rewrite (refreshToken_on_revoked s' (set_revoked sess) now' eq_refl Hnd' Hin' eq_refl).
      reflexivity.
Qed.

(** *** SessionRepository: cleanup, reuse check, statistics, expiry *)

Lemma filter_length_split {A} (p : A -> bool) (l : list A) :
  (length (filter p l) + length (filter (fun x => negb (p x)) l) = length l)%nat.
Proof.
  induction l as [|x r IH]; simpl; [reflexivity|].
  destruct (p x); simpl; lia.
Qed.

Lemma filter_filter_implied {A} (p q : A -> bool) (l : list A) :
  (forall x, p x = true -> q x = true) -> filter p (filter q l) = filter p l.
Proof.
  intros H. induction l as [|x r IH]; simpl; [reflexivity|].
  destruct (q x) eqn:Eq; simpl.
  - destruct (p x); [f_equal|]; exact IH.
  - destruct (p x) eqn:Ep; [|exact IH]. rewrite (H x Ep) in Eq. discriminate Eq.
Qed.

(** X10: [cleanupExpiredSessions now] deletes exactly the sessions whose
    expiry is before [now] (a session expiring at [now] stays, revoked or
    not) and returns how many it deleted. *)
Theorem cleanupExpiredSessions_exact (s : Store) (now : Z) :
  db_up s = true ->
  exists s' k, cleanupExpiredSessions now s = (s', Ok k) /\
    users s' = users s /\
    (forall x, In x (sessions s') <-> In x (sessions s) /\ now <= session_expiresAt x) /\
    k + Z.of_nat (length (sessions s')) = Z.of_nat (length (sessions s)).
Proof.
  intros Hup. do 2 eexists. split.
  - unfold cleanupExpiredSessions, prisma_session_deleteMany_expired, catch_, db.
    rewrite Hup. reflexivity.
  - simpl. split; [reflexivity|]. split.
    + intros x. rewrite filter_In. rewrite Bool.negb_true_iff, Z.ltb_ge. reflexivity.
    + rewrite <- (filter_length_split (fun x => session_expiresAt x <? now) (sessions s)). lia.
Qed.

(** X11: [cleanupExpiredSessions now] never removes a session that
    [getUserSessions] lists at [now] or later: every user's list of active
    sessions is the same after the cleanup. *)
Theorem cleanup_keeps_active_sessions (s : Store) (now now' : Z) (userId : string) :
  db_up s = true -> now <= now' ->
  let s' := fst (cleanupExpiredSessions now s) in
  getUserSessions userId now' s' = (s', snd (getUserSessions userId now' s)).
Proof.
  intros Hup Hle s'. unfold s'.
  unfold cleanupExpiredSessions, prisma_session_deleteMany_expired, getUserSessions,
    findActiveSessionsByUserId, prisma_session_findMany_active, catch_, bind, db.
  rewrite !Hup. simpl. rewrite ?Hup.
  rewrite filter_filter_implied; [reflexivity|].
  intros x Hx. apply andb_prop in Hx as [_ Hx]. apply Z.ltb_lt in Hx.
  apply Bool.negb_true_iff, Z.ltb_ge. lia.
Qed.

(** X12: [isRefreshTokenReused] agrees with [refreshToken]: a token it
    reports as reused is rejected by [refreshToken] with
    TOKEN_REUSE_DETECTED, and a token no session has is not reported. *)
Theorem isRefreshTokenReused_agrees (s : Store) (t : string) (now : Z) :
  (fst (isRefreshTokenReused t s) = s /\
   (snd (isRefreshTokenReused t s) = Ok true ->
    snd (refreshToken t now s) = Throw (AuthError TOKEN_REUSE_DETECTED))) /\
  (db_up s = true -> find_session_by_token t (sessions s) = None ->
   isRefreshTokenReused t s = (s, Ok false)).
Proof.
  split; [split|].
  - unfold isRefreshTokenReused, prisma_session_findUnique_token, catch_, bind, db, ret, throw.
    destruct (db_up s); [|reflexivity].
    destruct (find_session_by_token t (sessions s)); reflexivity.
  - destruct s as [us ss up n].
    unfold isRefreshTokenReused, prisma_session_findUnique_token, catch_, bind, db, ret, throw.
    cbn [db_up users sessions next_id].
    destruct up; [|discriminate].
    destruct (find_session_by_token t ss) as [x|] eqn:Ef; [|discriminate].
    simpl. intros Hr. injection Hr as Hr.
    cbv beta iota zeta delta [refreshToken findByRefreshToken prisma_session_findUnique_token
      revokeAllSessionsByUserId prisma_session_updateMany_revoke
      catch_ bind db throw ret is_AuthError].
    cbn [db_up users sessions next_id]. rewrite Ef. cbv beta iota. rewrite Hr. reflexivity.
  - intros Hup Hf.
    unfold isRefreshTokenReused, prisma_session_findUnique_token, catch_, bind, db.
    rewrite Hup, Hf. reflexivity.
Qed.

Lemma filter_and_disjoint {A} (p q r : A -> bool) (l : list A) :
  (forall x, q x = true -> r x = false) ->
  (length (filter (fun x => p x && q x) l) + length (filter (fun x => p x && r x) l)
   <= length (filter p l))%nat.
Proof.
  intros H. induction l as [|x t IH]; simpl; [lia|].
  destruct (p x); simpl; [|lia].
  destruct (q x) eqn:Eq; simpl.
  - rewrite (H x Eq). simpl. lia.
  - destruct (r x); simpl; lia.
Qed.

(** X13: [getSessionStats] reads only, and its active and revoked counts
    together never exceed the total (expired, non-revoked sessions are in
    neither). *)
Theorem getSessionStats_counts (s s' : Store) (userId : string) (now total active revoked : Z) :
  getSessionStats userId now s = (s', Ok (total, active, revoked)) ->
  s' = s /\ 0 <= active /\ 0 <= revoked /\ active + revoked <= total.
Proof.
  destruct s as [us ss up n].
  unfold getSessionStats, prisma_session_count, catch_, bind, db, ret.
  cbn [db_up users sessions next_id].
  destruct up; [|discriminate].
  intros H. injection H as <- <- <- <-. repeat split; try lia.
  rewrite <- Nat2Z.inj_add. apply Nat2Z.inj_le.
  rewrite (filter_ext
             (fun x => String.eqb (session_userId x) userId && negb (session_isRevoked x)
                       && (now <? session_expiresAt x))
             (fun x => String.eqb (session_userId x) userId
                       && (negb (session_isRevoked x) && (now <? session_expiresAt x))))
    by (intros x; rewrite Bool.andb_assoc; reflexivity).
  apply filter_and_disjoint.
  intros x Hq. destruct (session_isRevoked x); [discriminate Hq | reflexivity].
Qed.

(** X14: after a successful [updateSessionExpiry], [findById] returns the
    session it returned, carrying the new expiry; for an id no session has,
    it fails with "Failed to update session expiry" and changes nothing. *)
Theorem updateSessionExpiry_roundtrip (s s' : Store) (sessionId : string) (e : Z) :
  (forall y, updateSessionExpiry sessionId e s = (s', Ok y) ->
     findById sessionId s' = (s', Ok (Some y)) /\ session_expiresAt y = e /\
     session_id y = sessionId) /\
  (db_up s = true -> find_session_by_id sessionId (sessions s) = None ->
   updateSessionExpiry sessionId e s =
     (s, Throw (PlainError "Failed to update session expiry"))).
Proof.
  split.
  - intros y. destruct s as [us ss up n].
    unfold updateSessionExpiry, prisma_session_update_expiry, catch_, db, throw.
    cbn [db_up users sessions next_id].
    destruct up; [|discriminate].
    destruct (find_session_by_id sessionId ss) as [x|] eqn:Ef; [|discriminate].
    intros H. injection H as <- <-.
    pose proof (find_some _ _ Ef) as [_ Hx]. apply String.eqb_eq in Hx.
    split; [|split; [reflexivity | exact Hx]].
    unfold findById, prisma_session_findUnique_id, catch_, db. simpl.
    unfold find_session_by_id in *.
    rewrite (find_map_same_key _ (fun y => if String.eqb (session_id y) sessionId
                                           then set_expiresAt e y else y)), Ef.
    + simpl. rewrite Hx, String.eqb_refl. reflexivity.
    + intros y. unfold set_expiresAt.
      destruct (String.eqb (session_id y) sessionId) eqn:E; simpl; rewrite ?E; reflexivity.
  - intros Hup Hf. unfold updateSessionExpiry, prisma_session_update_expiry, catch_, db.
    rewrite Hup, Hf. reflexivity.
Qed.

(** *** getUserSessions: order and content *)

(** [b] was created no later than [a]. *)
Definition newer_first (a b : Session) : Prop := session_createdAt b <= session_createdAt a.

Lemma insert_desc_perm (x : Session) (l : list Session) :
  Permutation (x :: l) (insert_desc x l).
Proof.
  induction l as [|y r IH]; simpl; [reflexivity|].
  destruct (session_createdAt y <? session_createdAt x); [reflexivity|].
  rewrite perm_swap. apply perm_skip, IH.
Qed.

Lemma insert_desc_hd (y x : Session) (l : list Session) :
  HdRel newer_first y l -> newer_first y x -> HdRel newer_first y (insert_desc x l).
Proof.
  intros Hl Hx. destruct l as [|z r]; simpl; [constructor; exact Hx|].
  destruct (session_createdAt z <? session_createdAt x); constructor; [exact Hx|].
  inversion Hl; assumption.
Qed.

Lemma insert_desc_sorted (x : Session) (l : list Session) :
  Sorted newer_first l -> Sorted newer_first (insert_desc x l).
Proof.
  induction 1 as [|y r Hr IH Hhd]; simpl; [repeat constructor|].
  destruct (session_createdAt y <? session_createdAt x) eqn:E.
  - constructor; [constructor; assumption|]. constructor.
    unfold newer_first. apply Z.ltb_lt in E. lia.
  - constructor; [exact IH|]. apply insert_desc_hd; [exact Hhd|].
    unfold newer_first. apply Z.ltb_ge in E. exact E.
Qed.

Lemma sort_createdAt_desc_perm (l : list Session) : Permutation l (sort_createdAt_desc l).
Proof.
  induction l as [|x r IH]; simpl; [reflexivity|].
  rewrite <- insert_desc_perm. apply perm_skip, IH.
Qed.

Lemma sort_createdAt_desc_sorted (l : list Session) : Sorted newer_first (sort_createdAt_desc l).
Proof. induction l as [|x r IH]; simpl; [constructor|]. apply insert_desc_sorted, IH. Qed.

(** X15: [getUserSessions] lists exactly the user's sessions that are not
    revoked and expire after [now] (each once), newest first. *)
Theorem getUserSessions_sorted_active (s : Store) (userId : string) (now : Z) :
  db_up s = true ->
  exists l,
    getUserSessions userId now s =
      (s, Ok (map (fun x => (session_id x, session_createdAt x, session_expiresAt x,
                             session_isRevoked x)) l)) /\
    Permutation l (filter (fun x => String.eqb (session_userId x) userId
                                    && negb (session_isRevoked x)
                                    && (now <? session_expiresAt x)) (sessions s)) /\
    (forall x, In x l -> In x (sessions s) /\ session_userId x = userId /\
                         session_isRevoked x = false /\ now < session_expiresAt x) /\
    Sorted newer_first l.
Proof.
  intros Hup. eexists. split.
  - unfold getUserSessions, findActiveSessionsByUserId, prisma_session_findMany_active,
      catch_, bind, db.
    rewrite Hup. reflexivity.
  - split; [symmetry; apply sort_createdAt_desc_perm|]. split; [|apply sort_createdAt_desc_sorted].
    intros x Hx.
    apply (Permutation_in _ (Permutation_sym (sort_createdAt_desc_perm _))) in Hx.
    apply filter_In in Hx as [Hin Hp].
    apply andb_prop in Hp as [Hp Hexp]. apply andb_prop in Hp as [Hu Hr].
    apply String.eqb_eq in Hu. apply Bool.negb_true_iff in Hr. apply Z.ltb_lt in Hexp.
    repeat split; assumption.
Qed.

(** *** AuthService revocation wrappers *)

Lemma map_if_false {A} (p : A -> bool) (f : A -> A) (l : list A) :
  (forall x, In x l -> p x = false) -> map (fun x => if p x then f x else x) l = l.
Proof.
  induction l as [|x r IH]; simpl; intros H; [reflexivity|].
  rewrite (H x (or_introl eq_refl)). f_equal. apply IH. intros y Hy. apply H. right. exact Hy.
Qed.

(** X16: [AuthService.revokeSession] with a non-empty [userId] touches no
    session of another user and reports [false] for it; with an empty
    [userId] the owner check is dropped ([userId && { userId }]) and any
    user's session with that id is revoked, reporting [true]. *)
Theorem AuthService_revokeSession_owner (s : Store) (userId sessionId : string) :
  db_up s = true ->
  (userId <> ""%string ->
   (forall x, In x (sessions s) -> session_id x = sessionId -> session_userId x <> userId) ->
   AuthService_revokeSession userId sessionId s = (s, Ok false)) /\
  (forall x, In x (sessions s) -> session_id x = sessionId ->
   exists s', AuthService_revokeSession ""%string sessionId s = (s', Ok true) /\
     forall y, In y (sessions s') -> session_id y = sessionId -> session_isRevoked y = true).
Proof.
  intros Hup. split.
  - intros Hne Hother.
    assert (Hp : forall x, In x (sessions s) ->
              (String.eqb (session_id x) sessionId && owner_filter (Some userId) x) = false).
    { intros x Hx. unfold owner_filter.
      destruct (String.eqb_spec userId ""%string) as [E|_]; [contradiction|].
      destruct (String.eqb_spec (session_id x) sessionId) as [Ei|_]; [|reflexivity].
      destruct (String.eqb_spec (session_userId x) userId) as [Eu|_]; [|reflexivity].
      exfalso. exact (Hother x Hx Ei Eu). }
    destruct s as [us ss up n]; simpl in *; subst up.
    unfold AuthService_revokeSession, revokeSession, prisma_session_updateMany_revoke,
      catch_, bind, db. simpl.
    rewrite (filter_all_false _ _ Hp), (map_if_false _ _ _ Hp). reflexivity.
  - intros x Hx Hid.
    assert (Hlen : (0 < length (filter (fun y => String.eqb (session_id y) sessionId
                                                 && owner_filter (Some ""%string) y) (sessions s)))%nat).
    { destruct (filter _ (sessions s)) eqn:E; [|simpl; lia].
      exfalso. assert (Hin : In x (filter (fun y => String.eqb (session_id y) sessionId
                                                   && owner_filter (Some ""%string) y) (sessions s))).
      { apply filter_In. split; [exact Hx|]. rewrite Hid, String.eqb_refl. reflexivity. }
      rewrite E in Hin. exact Hin. }
    eexists. split.
    + unfold AuthService_revokeSession, revokeSession, prisma_session_updateMany_revoke,
        catch_, bind, db.
      rewrite Hup. cbv beta iota.
      assert (Hc : (0 <? Z.of_nat (length (filter (fun y => String.eqb (session_id y) sessionId
                                                 && owner_filter (Some ""%string) y) (sessions s)))) = true)
        by (apply Z.ltb_lt; lia).
      rewrite Hc. reflexivity.
    + intros y Hy Hyid. simpl in Hy. apply in_map_iff in Hy as [z [<- Hz]].
      unfold owner_filter. simpl. rewrite Bool.andb_true_r.
      destruct (String.eqb_spec (session_id z) sessionId) as [_|Hne]; [reflexivity|].
      exfalso. apply Hne. exact Hyid.
Qed.

(** X17: [AuthService.revokeAllSessions] returns the number of the user's
    sessions that were not yet revoked, touches no user record, and leaves
    the user with no active session. *)
Theorem revokeAllSessions_count (s : Store) (userId : string) :
  db_up s = true ->
  exists s', revokeAllSessions userId s =
               (s', Ok (Z.of_nat (length (filter (fun x => String.eqb (session_userId x) userId
                                                          && negb (session_isRevoked x))
                                                 (sessions s))))) /\
    users s' = users s /\
    forall now, getUserSessions userId now s' = (s', Ok []).
Proof.
  intros Hup. eexists. split.
  - unfold revokeAllSessions, catch_. rewrite (revokeAllSessionsByUserId_up s userId Hup).
    reflexivity.
  - split; [reflexivity|]. intros now. apply no_active_when_all_revoked; [exact Hup|].
    intros x Hx Hu. exact (revoke_all_where_In _ _ x Hx Hu).
Qed.

(** *** getUserProfile and updateUserProfile *)

(** X18: [getUserProfile] never fails: a database failure reads as a
    missing user ([null]), and a stored empty name is reported as absent. *)
Theorem getUserProfile_null_cases (s : Store) (userId : string) :
  (db_up s = false -> getUserProfile userId s = (s, Ok None)) /\
  (db_up s = true -> find_user_by_id userId (users s) = None ->
   getUserProfile userId s = (s, Ok None)) /\
  (forall u, db_up s = true -> find_user_by_id userId (users s) = Some u ->
   user_name u = Some ""%string ->
   getUserProfile userId s = (s, Ok (Some (user_id u, user_email u, None, user_isActive u)))).
Proof.
  unfold getUserProfile, prisma_user_findUnique_id, catch_, bind, db, ret.
  split; [|split].
  - intros H. rewrite H. reflexivity.
  - intros H Hf. rewrite H, Hf. reflexivity.
  - intros u H Hf Hn. rewrite H, Hf. unfold profile_of, name_or_null. rewrite Hn. reflexivity.
Qed.

Lemma NoDup_map_inj {A B} (f : A -> B) (l : list A) (a b : A) :
  NoDup (map f l) -> In a l -> In b l -> f a = f b -> a = b.
Proof.
  induction l as [|x r IH]; simpl; intros Hnd Ha Hb Hab; [contradiction|].
  inversion Hnd as [|? ? Hnot Hnd']; subst.
  destruct Ha as [<-|Ha], Hb as [<-|Hb]; [reflexivity| | |exact (IH Hnd' Ha Hb Hab)].
  - exfalso. apply Hnot. rewrite Hab. apply in_map, Hb.
  - exfalso. apply Hnot. rewrite <- Hab. apply in_map, Ha.
Qed.

Lemma nodup_email_set (us : list User) (i E : string) (g : User -> User) :
  (forall x, user_email (g x) = E) ->
  NoDup (map user_id us) -> NoDup (map user_email us) ->
  (forall y, In y us -> user_id y <> i -> user_email y <> E) ->
  NoDup (map user_email (map (fun x => if String.eqb (user_id x) i then g x else x) us)).
Proof.
  intros Hg. induction us as [|y r IH]; simpl; intros Hid Hem Hoth; [constructor|].
  inversion Hid as [|? ? Hnid Hid']; subst. inversion Hem as [|? ? Hnem Hem']; subst.
  constructor.
  - rewrite map_map. intros Hin. apply in_map_iff in Hin as [z [Hz Hzin]].
    destruct (String.eqb_spec (user_id y) i) as [Ey|Ey];
      destruct (String.eqb_spec (user_id z) i) as [Ez|Ez].
    + apply Hnid. rewrite Ey, <- Ez. apply in_map, Hzin.
    + rewrite Hg in Hz. exact (Hoth z (or_intror Hzin) Ez Hz).
    + rewrite Hg in Hz. exact (Hoth y (or_introl eq_refl) Ey (eq_sym Hz)).
    + apply Hnem. rewrite <- Hz. apply in_map, Hzin.
  - apply IH; [exact Hid' | exact Hem' |]. intros z Hz. apply Hoth. right. exact Hz.
Qed.

(** X19: [updateUserProfile] refuses an email whose [toLowerCase] form
    another user has with EMAIL_TAKEN and no change, and fails with
    PROFILE_UPDATE_FAILED for a missing user; otherwise it stores the name
    and the email as [toLowerCase] maps it and, when user ids and emails were
    unique, emails stay unique. *)
Theorem updateUserProfile_spec (s : Store) (userId : string) (name email : option string) :
  db_up s = true ->
  (forall e x, email = Some e -> find_user_by_email (toLowerCase e) (users s) = Some x ->
     user_id x <> userId ->
     updateUserProfile userId name email s = (s, Throw (AuthError EMAIL_TAKEN))) /\
  (find_user_by_id userId (users s) = None ->
   (forall e, email = Some e -> find_user_by_email (toLowerCase e) (users s) = None) ->
   updateUserProfile userId name email s = (s, Throw (AuthError PROFILE_UPDATE_FAILED))) /\
  (forall u, find_user_by_id userId (users s) = Some u ->
   (forall e x, email = Some e -> find_user_by_email (toLowerCase e) (users s) = Some x ->
      user_id x = userId) ->
   exists s', updateUserProfile userId name email s = (s', Ok tt) /\
     sessions s' = sessions s /\
     find_user_by_id userId (users s') =
       Some (profile_patch name (option_map toLowerCase email) u) /\
     (NoDup (map user_id (users s)) -> NoDup (map user_email (users s)) ->
      NoDup (map user_email (users s')))).
Proof.
  intros Hup. destruct s as [us ss up n]; simpl in *; subst up.
  split; [|split].
  - intros e x -> Hf Hne.
    cbv beta iota zeta delta [updateUserProfile prisma_user_findUnique_email
      catch_ bind db throw ret is_AuthError].
    cbn [db_up users sessions next_id]. rewrite Hf. cbv beta iota.
    destruct (String.eqb_spec (user_id x) userId) as [E|_]; [contradiction|]. reflexivity.
  - intros Hid Hfree.
    assert (Hpre : (match email with
                    | Some e =>
                        existingUser <- prisma_user_findUnique_email (toLowerCase e) ;;
                        match existingUser with
                        | Some x => if negb (String.eqb (user_id x) userId)
                                    then throw (AuthError EMAIL_TAKEN) else ret tt
                        | None => ret tt
                        end
                    | None => ret tt
                    end) (mkStore us ss true n) = (mkStore us ss true n, Ok tt)).
    { destruct email as [e|]; [|reflexivity].
      unfold bind, prisma_user_findUnique_email, db. simpl. rewrite (Hfree e eq_refl).
      reflexivity. }
    unfold updateUserProfile, catch_. erewrite bind_Ok; [|exact Hpre].
    unfold bind, prisma_user_update, db. simpl. rewrite Hid. reflexivity.
  - intros u Hid Hown.
    set (patch := profile_patch name (option_map toLowerCase email)).
    exists (mkStore (map (fun x => if String.eqb (user_id x) userId then patch x else x) us)
                    ss true n).
    assert (Hpre : (match email with
                    | Some e =>
                        existingUser <- prisma_user_findUnique_email (toLowerCase e) ;;
                        match existingUser with
                        | Some x => if negb (String.eqb (user_id x) userId)
                                    then throw (AuthError EMAIL_TAKEN) else ret tt
                        | None => ret tt
                        end
                    | None => ret tt
                    end) (mkStore us ss true n) = (mkStore us ss true n, Ok tt)).
    { destruct email as [e|]; [|reflexivity].
      unfold bind, prisma_user_findUnique_email, db. simpl.
      destruct (find_user_by_email (toLowerCase e) us) as [x|] eqn:Hf; [|reflexivity].
      rewrite (Hown e x eq_refl Hf), String.eqb_refl. reflexivity. }
    split; [|split; [reflexivity | split]].
    + unfold updateUserProfile, catch_. erewrite bind_Ok; [|exact Hpre].
      erewrite bind_Ok; [|apply user_update_found, Hid]. reflexivity.
    + simpl. rewrite find_id_update, Hid; [reflexivity | intros; reflexivity].
    + intros Hnid Hnem. simpl. destruct email as [e|].
      * apply (nodup_email_set us userId (toLowerCase e) patch (fun _ => eq_refl) Hnid Hnem).
        intros y Hy Hyid Hye.
        assert (Hx : exists x, find_user_by_email (toLowerCase e) us = Some x).
        { unfold find_user_by_email.
          destruct (find (fun v => String.eqb (user_email v) (toLowerCase e)) us) as [x|] eqn:Hf;
            [eauto|].
          apply find_none with (x := y) in Hf; [|exact Hy].
          rewrite Hye, String.eqb_refl in Hf. discriminate Hf. }
        destruct Hx as [x Hx].
        pose proof (Hown e x eq_refl Hx) as Hxid.
        pose proof (find_some _ _ Hx) as [Hxin Hxe]. apply String.eqb_eq in Hxe.
        assert (x = y) by (apply (NoDup_map_inj user_email us); congruence).
        subst y. contradiction.
      * rewrite map_map. erewrite map_ext; [exact Hnem|].
        intros x. destruct (String.eqb (user_id x) userId); reflexivity.
Qed.

(** *** Middleware *)

Lemma js_split_char_sep (c : ascii) (w t : string) :
  ~ In c (list_ascii_of_string w) ->
  js_split_char c (String.append w (String c t)) = w :: js_split_char c t.
Proof.
  induction w as [|a w IH]; simpl; intros Hw.
  - rewrite Ascii.eqb_refl. reflexivity.
  - destruct (Ascii.eqb_spec a c) as [E|_]; [exfalso; apply Hw; left; exact E|].
    rewrite IH; [reflexivity|]. intros H. apply Hw. right. exact H.
Qed.

Lemma js_split_char_none (c : ascii) (t : string) :
  ~ In c (list_ascii_of_string t) -> js_split_char c t = [t].
Proof.
  induction t as [|a t IH]; simpl; intros Ht; [reflexivity|].
  destruct (Ascii.eqb_spec a c) as [E|_]; [exfalso; apply Ht; left; exact E|].
  rewrite IH; [reflexivity|]. intros H. apply Ht. right. exact H.
Qed.

(** X20: [authenticateToken] takes the second space-separated field of the
    [Authorization] header whatever the first one is, so any scheme word (not
    only "Bearer") is accepted before a valid token; a header without a space,
    or no header, gives 401 TOKEN_MISSING. *)
Theorem authenticateToken_any_scheme (w t : string) (now : Z) :
  (~ In " "%char (list_ascii_of_string w) ->
   ~ In " "%char (list_ascii_of_string t) -> t <> ""%string ->
   authenticateToken (Some (String.append w (String " " t))) now =
     match validateAccessToken (jwt_decode t) now with
     | None => (Respond 401 "INVALID_TOKEN", None)
     | Some decoded => (Next, Some decoded)
     end) /\
  (~ In " "%char (list_ascii_of_string w) ->
   authenticateToken (Some w) now = (Respond 401 "TOKEN_MISSING", None)) /\
  authenticateToken None now = (Respond 401 "TOKEN_MISSING", None).
Proof.
  split; [|split].
  - intros Hw Ht Hne. unfold authenticateToken, truthy.
    assert (Hh : String.eqb (String.append w (String " " t)) "" = false).
    { destruct w; reflexivity. }
    rewrite Hh. simpl negb. cbv iota.
    rewrite (js_split_char_sep _ _ _ Hw), (js_split_char_none _ _ Ht). simpl.
    destruct (String.eqb_spec t "") as [E|_]; [contradiction|]. reflexivity.
  - intros Hw. unfold authenticateToken, truthy.
    destruct (String.eqb w "") eqn:E; [cbn [negb]; rewrite E; reflexivity|]. simpl negb. cbv iota.
    rewrite (js_split_char_none _ _ Hw). reflexivity.
  - reflexivity.
Qed.

(** X21: [requireRole] ignores who the user is: every authenticated request
    passes when 'user' is among the allowed roles and gets 403
    INSUFFICIENT_PERMISSIONS otherwise (so an 'admin'-only route rejects
    everyone); an unauthenticated request gets 401. *)
Theorem requireRole_constant_role (allowedRoles : list string) :
  (forall user, In "user"%string allowedRoles -> requireRole allowedRoles (Some user) = Next) /\
  (forall user, ~ In "user"%string allowedRoles ->
     requireRole allowedRoles (Some user) = Respond 403 "INSUFFICIENT_PERMISSIONS") /\
  requireRole allowedRoles None = Respond 401 "UNAUTHORIZED".
Proof.
  split; [|split].
  - intros user Hin. unfold requireRole.
    assert (H : existsb (String.eqb "user") allowedRoles = true).
    { apply existsb_exists. exists "user"%string. split; [exact Hin | apply String.eqb_refl]. }
    rewrite H. reflexivity.
  - intros user Hnin. unfold requireRole.
    destruct (existsb (String.eqb "user") allowedRoles) eqn:H; [|reflexivity].
    apply existsb_exists in H as [r [Hr Er]]. apply String.eqb_eq in Er. subst r.
    contradiction.
  - reflexivity.
Qed.

(** X22: [csrfProtection] lets a request through exactly when its method is
    not POST, PUT, PATCH or DELETE, or when the [x-csrf-token] header and the
    [csrf-token] cookie are the same non-empty string. *)
Theorem csrfProtection_passes_iff (method : string) (csrfToken csrfCookie : option string) :
  csrfProtection method csrfToken csrfCookie = Next <->
  ~ In method ["POST"; "PUT"; "PATCH"; "DELETE"]%string \/
  exists t, t <> ""%string /\ csrfToken = Some t /\ csrfCookie = Some t.
Proof.
  unfold csrfProtection.
  destruct (existsb (String.eqb method) ["POST"; "PUT"; "PATCH"; "DELETE"]%string) eqn:Hm.
  - apply existsb_exists in Hm as [m [Hin Em]]. apply String.eqb_eq in Em. subst m.
    simpl negb. cbv iota.
    split.
    + destruct csrfToken as [a|]; [|intros H; simpl in H; discriminate H].
      destruct csrfCookie as [b|];
        [|intros H; simpl in H; rewrite Bool.orb_true_r in H; discriminate H].
      unfold truthy, opt_string_eqb.
      destruct (String.eqb_spec a "") as [Ea|Ea]; simpl; [discriminate|].
      destruct (String.eqb_spec b "") as [Eb|Eb]; simpl; [discriminate|].
      destruct (String.eqb_spec a b) as [<-|_]; simpl; [|discriminate].
      intros _. right. exists a. repeat split; assumption.
    + intros [Hn|[t [Ht [-> ->]]]]; [contradiction|]. simpl.
      destruct (String.eqb_spec t "") as [E|_]; [contradiction|]. simpl.
      rewrite String.eqb_refl. reflexivity.
  - simpl negb. cbv iota. split; [intros _; left|reflexivity].
    intros Hin. assert (H : existsb (String.eqb method) ["POST"; "PUT"; "PATCH"; "DELETE"]%string = true).
    { apply existsb_exists. exists method. split; [exact Hin | apply String.eqb_refl]. }
    rewrite H in Hm. discriminate Hm.
Qed.

End AuthCore.

(** ** Concrete runs: witnesses and counterexamples *)

Ltac nodup_strings := repeat constructor; simpl; intuition discriminate.

(** Alice has a revoked session [t1] and an active one [t2]. *)
Definition sess_t1 : Session := mkSession "s1" "u1" "t1" true 1000000 0.
Definition sess_t2 : Session := mkSession "s2" "u1" "t2" false 1000000 1.

Definition demo_store : Store := mkStore [alice] [sess_t1; sess_t2] true 3.

Example login_demo_ok :
  snd (login default_cfg demo_hmac demo_verify demo_cuid demo_uuid toLowerCase_ascii utc_tza
         "Alice@X.com" "Aa1!aaaa" 1000 demo_store)
  = Ok (mkAuthResponse "u1" "alice@x.com" None
          (generateAccessToken default_cfg demo_hmac alice 1000) (demo_uuid 3)).
Proof. reflexivity. Qed.

Lemma refreshToken_reuse_revokes_all_witness :
  snd (refreshToken default_cfg demo_hmac "t1" 500 demo_store)
  = Throw (AuthError TOKEN_REUSE_DETECTED)
  /\ getUserSessions "u1" 500 (fst (refreshToken default_cfg demo_hmac "t1" 500 demo_store))
     = (fst (refreshToken default_cfg demo_hmac "t1" 500 demo_store), Ok []).
Proof.
  destruct (refreshToken_reuse_revokes_all default_cfg demo_hmac demo_store sess_t1 500
              eq_refl ltac:(nodup_strings) ltac:(simpl; auto) eq_refl) as [E [_ G]].
  simpl in E. rewrite E. split; [reflexivity | apply G].
Defined.

(** C2: revoking a session that is already revoked still reports [true]. *)
Theorem revokeSession_already_revoked_true :
  revokeSession "s1" (Some "u1"%string) demo_store = (demo_store, Ok true).
Proof. reflexivity. Qed.

Lemma validateAccessToken_rejects_minted_unless_HS256_witness :
  validateAccessToken hs512_cfg demo_hmac (generateAccessToken hs512_cfg demo_hmac alice 0) 1000
  = None.
Proof.
  apply (validateAccessToken_rejects_minted_unless_HS256 hs512_cfg demo_hmac alice 0 1000).
  discriminate.
Defined.

Lemma login_lockout_after_five_witness :
  snd (login default_cfg demo_hmac demo_verify demo_cuid demo_uuid toLowerCase_ascii utc_tza "alice@x.com" "Aa1!aaaa" 6000
         (fst (login_seq default_cfg demo_hmac demo_verify demo_cuid demo_uuid toLowerCase_ascii utc_tza "alice@x.com"
                 [("wrong"%string, 1000); ("wrong"%string, 2000); ("wrong"%string, 3000); ("wrong"%string, 4000);
                  ("wrong"%string, 5000)] demo_store)))
  = Throw (AuthError ACCOUNT_LOCKED).
Proof.
  pose proof (login_lockout_after_five default_cfg demo_hmac demo_verify demo_cuid demo_uuid toLowerCase_ascii utc_tza
                demo_store "alice@x.com" "wrong" alice 1000 2000 3000 4000 5000
                eq_refl eq_refl eq_refl eq_refl eq_refl eq_refl eq_refl eq_refl) as H.
  destruct (login_seq default_cfg demo_hmac demo_verify demo_cuid demo_uuid toLowerCase_ascii utc_tza "alice@x.com"
              [("wrong"%string, 1000); ("wrong"%string, 2000); ("wrong"%string, 3000); ("wrong"%string, 4000);
               ("wrong"%string, 5000)] demo_store) as [s5 rs].
  destruct H as [_ [_ H]]. simpl. apply H. lia.
Defined.

(** The boundary of C5: Alice's active session expires exactly at 1000. *)
Definition boundary_session : Session := mkSession "s2" "u1" "t2" false 1000 1.
Definition boundary_store : Store := mkStore [alice] [boundary_session] true 3.

(** C5: at [expiresAt = now] the session is not treated as expired: the
    refresh succeeds and the session stays unrevoked. *)
Lemma refreshToken_boundary_not_expired :
  refreshToken default_cfg demo_hmac "t2" 1000 boundary_store
  = (boundary_store, Ok (generateAccessToken default_cfg demo_hmac alice 1000)).
Proof. reflexivity. Qed.

Lemma refreshToken_expired_strict_witness :
  snd (refreshToken default_cfg demo_hmac "t2" 1001 boundary_store)
  = Throw (AuthError REFRESH_TOKEN_EXPIRED) /\
  refreshToken default_cfg demo_hmac "t2" 1000 boundary_store
  = (boundary_store, Ok (generateAccessToken default_cfg demo_hmac alice 1000)).
Proof.
  change "t2"%string with (session_refreshToken boundary_session). split.
  - destruct (proj1 (refreshToken_expired_strict default_cfg demo_hmac boundary_store
                       boundary_session 1001 eq_refl ltac:(nodup_strings) ltac:(simpl; auto)
                       eq_refl) ltac:(simpl; lia)) as [E _].
    rewrite E. reflexivity.
  - apply (proj2 (proj2 (refreshToken_expired_strict default_cfg demo_hmac boundary_store
                           boundary_session 1000 eq_refl ltac:(nodup_strings) ltac:(simpl; auto)
                           eq_refl) ltac:(simpl; lia)) alice); reflexivity.
Defined.

Lemma changePassword_revokes_all_witness :
  snd (refreshToken default_cfg demo_hmac "t2" 500
         (fst (changePassword demo_hash demo_verify "u1" "Aa1!aaaa" "Bb2@bbbb" demo_store)))
  = Throw (AuthError TOKEN_REUSE_DETECTED).
Proof.
  destruct (changePassword_revokes_all default_cfg demo_hmac demo_hash demo_verify demo_store
              "u1" "Aa1!aaaa" "Bb2@bbbb" eq_refl ltac:(nodup_strings)) as [Hok _].
  destruct (Hok alice eq_refl eq_refl) as [_ [_ [_ Hr]]].
  apply (Hr sess_t2 500); [simpl; auto | reflexivity].
Defined.

Lemma logout_total_idempotent_witness :
  snd (logout "t2" demo_store) = Ok tt /\
  fst (logout "t2" (fst (logout "t2" demo_store))) = fst (logout "t2" demo_store).
Proof.
  destruct (logout_total_idempotent demo_store "t2") as [H1 [_ [H3 _]]].
  split; [exact H1 | exact H3].
Defined.

Lemma refreshToken_success_frame_witness :
  fst (refreshToken default_cfg demo_hmac "t2" 500 demo_store) = demo_store.
Proof.
  destruct (refreshToken_success_frame default_cfg demo_hmac demo_store
              (fst (refreshToken default_cfg demo_hmac "t2" 500 demo_store)) "t2" 500
              (generateAccessToken default_cfg demo_hmac alice 500) ltac:(reflexivity))
    as [E _].
  exact E.
Defined.





(** ** Concrete runs of the further properties *)

(** Alice after five failures, locked until t = 1000. *)
Definition locked_alice : User :=
  mkUser "u1" "alice@x.com" (demo_hash "Aa1!aaaa") None true true 5 (Some 1000).
Definition locked_store : Store := mkStore [locked_alice] [sess_t1; sess_t2] true 3.

Definition inactive_alice : User :=
  mkUser "u1" "alice@x.com" (demo_hash "Aa1!aaaa") None false false 0 None.
Definition inactive_store : Store := mkStore [inactive_alice] [sess_t1; sess_t2] true 3.

Definition bob : User := mkUser "u2" "bob@x.com" (demo_hash "Bb2@bbbb") None true false 0 None.
Definition two_users_store : Store := mkStore [alice; bob] [sess_t1; sess_t2] true 3.

Definition down_store : Store := mkStore [alice] [sess_t1; sess_t2] false 3.

(** jsonwebtoken's decoding when every string is an unparsable token. *)
Definition demo_decode (t : string) : Token := Malformed t.

Ltac no_char := simpl; intuition discriminate.

Lemma lock_invariant_preserved_witness :
  users_lock_ok locked_store /\
  users_lock_ok (fst (login default_cfg demo_hmac demo_verify demo_cuid demo_uuid toLowerCase_ascii utc_tza
                        "alice@x.com" "wrong" 500 locked_store)).
Proof.
  assert (H : users_lock_ok locked_store) by (intros u [<-|[]] _; discriminate).
  split; [exact H|].
  exact (proj1 (lock_invariant_preserved default_cfg demo_hmac demo_hash demo_verify demo_cuid
                  demo_uuid toLowerCase_ascii utc_tza locked_store H) _ _ _).
Defined.

Lemma login_success_witness :
  exists s' r, login default_cfg demo_hmac demo_verify demo_cuid demo_uuid toLowerCase_ascii utc_tza
                 "Alice@X.com" "Aa1!aaaa" 2000 locked_store = (s', Ok r).
Proof.
  destruct (login_success default_cfg demo_hmac demo_verify demo_cuid demo_uuid toLowerCase_ascii utc_tza locked_store
              "Alice@X.com" "Aa1!aaaa" 2000 locked_alice eq_refl ltac:(vm_compute; reflexivity)
              eq_refl ltac:(vm_compute; reflexivity)
              (fun l _ H => ltac:(injection H as <-; lia)) ltac:(vm_compute; reflexivity))
    as [s' [r [E _]]].
  exists s', r. exact E.
Defined.

Lemma login_rejections_leave_store_witness :
  login default_cfg demo_hmac demo_verify demo_cuid demo_uuid toLowerCase_ascii utc_tza "bob@x.com" "x" 0 demo_store
  = (demo_store, Throw (AuthError INVALID_CREDENTIALS)) /\
  login default_cfg demo_hmac demo_verify demo_cuid demo_uuid toLowerCase_ascii utc_tza "alice@x.com" "x" 0 inactive_store
  = (inactive_store, Throw (AuthError ACCOUNT_INACTIVE)).
Proof.
  split.
  - apply (proj1 (login_rejections_leave_store default_cfg demo_hmac demo_verify demo_cuid
                    demo_uuid toLowerCase_ascii utc_tza demo_store "bob@x.com" "x" 0 eq_refl)).
    vm_compute. reflexivity.
  - apply (proj2 (login_rejections_leave_store default_cfg demo_hmac demo_verify demo_cuid
                    demo_uuid toLowerCase_ascii utc_tza inactive_store "alice@x.com" "x" 0 eq_refl) inactive_alice);
      vm_compute; reflexivity.
Defined.

Lemma login_wrong_password_after_lock_expiry_witness :
  exists s', login default_cfg demo_hmac demo_verify demo_cuid demo_uuid toLowerCase_ascii utc_tza
               "alice@x.com" "nope" 2000 locked_store
             = (s', Throw (AuthError INVALID_CREDENTIALS)).
Proof.
  destruct (login_wrong_password_after_lock_expiry default_cfg demo_hmac demo_verify demo_cuid
              demo_uuid toLowerCase_ascii utc_tza locked_store "alice@x.com" "nope" 2000 1000 locked_alice
              ltac:(vm_compute; reflexivity) eq_refl ltac:(vm_compute; reflexivity)
              eq_refl eq_refl eq_refl ltac:(lia) ltac:(vm_compute; reflexivity))
    as [s' [E _]].
  exists s'. exact E.
Defined.

Lemma register_success_witness :
  exists s1 r, register default_cfg demo_hmac demo_hash demo_cuid demo_uuid toLowerCase_ascii utc_tza
                 "Bob@x.com" "Bb2@bbbb" None 0 demo_store = (s1, Ok r) /\
               resp_user_email r = "bob@x.com"%string.
Proof.
  destruct (register default_cfg demo_hmac demo_hash demo_cuid demo_uuid toLowerCase_ascii utc_tza
              "Bob@x.com" "Bb2@bbbb" None 0 demo_store) as [s1 [r|e]] eqn:H;
    [|vm_compute in H; discriminate H].
  exists s1, r. split; [reflexivity|].
  destruct (register_success default_cfg demo_hmac demo_hash demo_cuid demo_uuid toLowerCase_ascii utc_tza _ _ _ _ _ _ _ H)
    as [_ [_ [_ Em]]].
  rewrite Em. vm_compute. reflexivity.
Defined.

Lemma register_twice_user_exists_witness :
  exists s1 r, register default_cfg demo_hmac demo_hash demo_cuid demo_uuid toLowerCase_ascii utc_tza
                 "Bob@x.com" "Bb2@bbbb" None 0 demo_store = (s1, Ok r) /\
               register default_cfg demo_hmac demo_hash demo_cuid demo_uuid toLowerCase_ascii utc_tza
                 "BOB@X.COM" "Zz9!zzzz" None 1 s1 = (s1, Throw (AuthError USER_EXISTS)).
Proof.
  destruct (register default_cfg demo_hmac demo_hash demo_cuid demo_uuid toLowerCase_ascii utc_tza
              "Bob@x.com" "Bb2@bbbb" None 0 demo_store) as [s1 [r|e]] eqn:H;
    [|vm_compute in H; discriminate H].
  exists s1, r. split; [reflexivity|].
  apply (register_twice_user_exists default_cfg demo_hmac demo_hash demo_cuid demo_uuid toLowerCase_ascii utc_tza
           _ _ _ _ _ _ _ _ _ _ _ H).
  vm_compute. reflexivity.
Defined.

Lemma register_then_login_witness :
  exists s1 r s2 r',
    register default_cfg demo_hmac demo_hash demo_cuid demo_uuid toLowerCase_ascii utc_tza
      "Bob@x.com" "Bb2@bbbb" None 0 demo_store = (s1, Ok r) /\
    login default_cfg demo_hmac demo_verify demo_cuid demo_uuid toLowerCase_ascii utc_tza "BOB@x.com" "Bb2@bbbb" 10 s1
      = (s2, Ok r') /\ resp_user_id r' = resp_user_id r.
Proof.
  destruct (register default_cfg demo_hmac demo_hash demo_cuid demo_uuid toLowerCase_ascii utc_tza
              "Bob@x.com" "Bb2@bbbb" None 0 demo_store) as [s1 [r|e]] eqn:H;
    [|vm_compute in H; discriminate H].
  pose proof H as H'. vm_compute in H'. injection H' as Hs1 _. subst s1.
  destruct (register_then_login default_cfg demo_hmac demo_hash demo_verify demo_cuid demo_uuid toLowerCase_ascii utc_tza
              _ _ "Bob@x.com" "BOB@x.com" "Bb2@bbbb" None 0 10 r H
              ltac:(vm_compute; reflexivity) ltac:(vm_compute; reflexivity)
              ltac:(vm_compute; reflexivity)) as [s2 [r' [E [Hid _]]]].
  eexists; exists r, s2, r'. split; [reflexivity|]. split; [exact E | exact Hid].
Defined.

Lemma refreshToken_invalid_paths_witness :
  snd (refreshToken default_cfg demo_hmac "t2" 500 inactive_store) = Throw (AuthError USER_INVALID).
Proof.
  destruct (proj2 (refreshToken_invalid_paths default_cfg demo_hmac inactive_store "t2" sess_t2 500
                     eq_refl)
              ltac:(nodup_strings) ltac:(simpl; auto) eq_refl ltac:(vm_compute; discriminate)
              (fun u H => ltac:(vm_compute in H; injection H as <-; left; reflexivity)))
    as [E _].
  change "t2"%string with (session_refreshToken sess_t2). rewrite E. reflexivity.
Defined.

Lemma cleanupExpiredSessions_exact_witness :
  exists s' k, cleanupExpiredSessions 1000 boundary_store = (s', Ok k) /\
               In boundary_session (sessions s').
Proof.
  destruct (cleanupExpiredSessions_exact boundary_store 1000 eq_refl) as [s' [k [E [_ [Hin _]]]]].
  exists s', k. split; [exact E|]. apply Hin. split; [left; reflexivity | vm_compute; discriminate].
Defined.

Lemma cleanup_keeps_active_sessions_witness :
  getUserSessions "u1" 600 (fst (cleanupExpiredSessions 500 demo_store))
  = (fst (cleanupExpiredSessions 500 demo_store), snd (getUserSessions "u1" 600 demo_store)).
Proof. exact (cleanup_keeps_active_sessions demo_store 500 600 "u1" eq_refl ltac:(lia)). Defined.

Lemma isRefreshTokenReused_agrees_witness :
  snd (refreshToken default_cfg demo_hmac "t1" 0 demo_store) = Throw (AuthError TOKEN_REUSE_DETECTED).
Proof.
  apply (proj2 (proj1 (isRefreshTokenReused_agrees default_cfg demo_hmac demo_store "t1" 0))).
  vm_compute. reflexivity.
Defined.

Lemma getSessionStats_counts_witness :
  demo_store = demo_store /\ 0 <= 1 /\ 0 <= 1 /\ 1 + 1 <= 2.
Proof.
  exact (getSessionStats_counts demo_store demo_store "u1" 500 2 1 1
           ltac:(vm_compute; reflexivity)).
Defined.

Lemma updateSessionExpiry_roundtrip_witness :
  exists s' y, updateSessionExpiry "s2" 5 demo_store = (s', Ok y) /\
               findById "s2" s' = (s', Ok (Some y)).
Proof.
  destruct (updateSessionExpiry "s2" 5 demo_store) as [s' [y|e]] eqn:H;
    [|vm_compute in H; discriminate H].
  exists s', y. split; [reflexivity|].
  exact (proj1 (proj1 (updateSessionExpiry_roundtrip demo_store s' "s2" 5) y H)).
Defined.

Lemma getUserSessions_sorted_active_witness :
  exists l, Sorted newer_first l /\
    getUserSessions "u1" 500 demo_store =
      (demo_store, Ok (map (fun x => (session_id x, session_createdAt x, session_expiresAt x,
                                      session_isRevoked x)) l)).
Proof.
  destruct (getUserSessions_sorted_active demo_store "u1" 500 eq_refl) as [l [E [_ [_ S]]]].
  exists l. split; [exact S | exact E].
Defined.

Lemma AuthService_revokeSession_owner_witness :
  AuthService_revokeSession "u2" "s2" demo_store = (demo_store, Ok false).
Proof.
  apply (proj1 (AuthService_revokeSession_owner demo_store "u2" "s2" eq_refl)).
  - discriminate.
  - intros x Hx _. simpl in Hx. destruct Hx as [<-|[<-|[]]]; discriminate.
Defined.

Lemma revokeAllSessions_count_witness :
  exists s', revokeAllSessions "u1" demo_store = (s', Ok 1) /\
             getUserSessions "u1" 0 s' = (s', Ok []).
Proof.
  destruct (revokeAllSessions_count demo_store "u1" eq_refl) as [s' [E [_ G]]].
  exists s'. split; [exact E | apply G].
Defined.

Lemma getUserProfile_null_cases_witness :
  getUserProfile "u1" down_store = (down_store, Ok None).
Proof. exact (proj1 (getUserProfile_null_cases down_store "u1") eq_refl). Defined.

Lemma updateUserProfile_spec_witness :
  updateUserProfile toLowerCase_ascii "u1" None (Some "BOB@x.com"%string) two_users_store
  = (two_users_store, Throw (AuthError EMAIL_TAKEN)).
Proof.
  apply (proj1 (updateUserProfile_spec toLowerCase_ascii two_users_store "u1" None (Some "BOB@x.com"%string) eq_refl)
           "BOB@x.com"%string bob eq_refl); [vm_compute; reflexivity | discriminate].
Defined.

Lemma authenticateToken_any_scheme_witness :
  authenticateToken default_cfg demo_hmac demo_decode (Some "Token abc"%string) 0
  = (Respond 401 "INVALID_TOKEN", None).
Proof.
  change "Token abc"%string with (String.append "Token" (String " " "abc")).
  rewrite (proj1 (authenticateToken_any_scheme default_cfg demo_hmac demo_decode
                       "Token"%string "abc"%string 0)
             ltac:(no_char) ltac:(no_char) ltac:(discriminate)).
  reflexivity.
Defined.

Lemma requireRole_constant_role_witness :
  requireRole ["admin"]%string (Some (Some "u1"%string, Some "alice@x.com"%string))
  = Respond 403 "INSUFFICIENT_PERMISSIONS".
Proof.
  apply (proj1 (proj2 (requireRole_constant_role ["admin"]%string))). no_char.
Defined.

Lemma csrfProtection_passes_iff_witness :
  csrfProtection "POST"%string (Some "abc"%string) (Some "abc"%string) = Next.
Proof.
  apply (proj2 (csrfProtection_passes_iff "POST"%string (Some "abc"%string) (Some "abc"%string))).
  right. exists "abc"%string. repeat split. discriminate.
Defined.
